(** * spectralhub: the AudioSpectrum component

    A shallow embedding of [src/components/AudioSpectrum.tsx]: the history
    buffer kept in React state, the coordinate arithmetic of the three drawing
    routines, and the capture life cycle ([startAudioAnalysis],
    [stopAudioAnalysis], [animate]) over an explicit model of the host
    (media tracks, audio contexts, animation-frame requests, the canvas).

    Integers that come from the DOM (canvas size, bin count, [Date.now()])
    are [Z]; numbers computed by the drawing code are kept abstract behind a
    small interface, instantiated by binary64 floats (what the engine
    computes) and by the reals (the idealised arithmetic). *)

From Stdlib Require Import ZArith List Bool Lia.
From Stdlib Require String.
Import String.StringSyntax.
From Stdlib Require Import Sorting.Sorted.
From Stdlib Require Import Reals Lra R_Ifp.
From Stdlib Require Import Floats.
Import ListNotations.

Set Implicit Arguments.
Open Scope Z_scope.
Bind Scope string_scope with String.string.
Delimit Scope string_scope with string.

(* ================================================================== *)
(** ** JavaScript numbers *)
(* ================================================================== *)

Module JSNum.

(** The four arithmetic operators and the conversion of an integer. *)
Class Arith (N : Type) : Type := {
  ofZ : Z -> N;
  add : N -> N -> N;
  sub : N -> N -> N;
  mul : N -> N -> N;
  div : N -> N -> N
}.

(** [Math.log10], [Math.pow] and [Math.round].  [round] answers [None]
    when the result is not an integer (NaN or an infinity): every
    comparison of the source with such a value is false. *)
Class Libm (N : Type) : Type := {
  log10 : N -> N;
  pow : N -> N -> N;
  round : N -> option Z
}.

Declare Scope js_scope.
Delimit Scope js_scope with js.
Infix "+" := add : js_scope.
Infix "-" := sub : js_scope.
Infix "*" := mul : js_scope.
Infix "/" := div : js_scope.

(** Idealised arithmetic: the real numbers.  [Math.round] rounds half up,
    [floor (x + 1/2)]. *)
#[export] Instance Arith_R : Arith R :=
  {| ofZ := IZR; add := Rplus; sub := Rminus; mul := Rmult; div := Rdiv |}.

#[export] Instance Libm_R : Libm R :=
  {| log10 := fun x => (ln x / ln 10)%R;
     pow := Rpower;
     round := fun x => Some (Int_part (x + / 2)) |}.

(** IEEE 754 binary64, the engine's number type. *)
Definition float_ofZ (z : Z) : float :=
  if z <? 0
  then PrimFloat.opp (PrimFloat.of_uint63 (Uint63.of_Z (- z)))
  else PrimFloat.of_uint63 (Uint63.of_Z z).

#[export] Instance Arith_float : Arith float :=
  {| ofZ := float_ofZ;
     add := PrimFloat.add; sub := PrimFloat.sub;
     mul := PrimFloat.mul; div := PrimFloat.div |}.

(** A double that is neither NaN nor an infinity. *)
Definition finiteDouble (x : float) : Prop :=
  match Prim2SF x with
  | S754_nan | S754_infinity _ => False
  | _ => True
  end.

End JSNum.
Import JSNum.

(* ================================================================== *)
(** ** History buffer (lines 7-10, 18, 21, 100-104) *)
(* ================================================================== *)

Module History.

(** [interface SpectrumData]. *)
Record SpectrumData : Type := {
  timestamp : Z;
  frequencies : list Z
}.

(** [const HISTORY_DURATION = 5 * 60 * 1000]. *)
Definition HISTORY_DURATION : Z := 5 * 60 * 1000.

(** The updater passed to [setSpectrumHistory] in [animate]:
    [prev => [...prev, newSpectrumData].filter(data =>
               now - data.timestamp <= W)],
    with the retention window [W] a parameter. *)
Definition historyUpdater (W now : Z) (newSpectrumData : SpectrumData)
    (prev : list SpectrumData) : list SpectrumData :=
  let updated := prev ++ [newSpectrumData] in
  filter (fun data => now - timestamp data <=? W) updated.

(** One append: [animate] stamps the snapshot with the [now] it filters by. *)
Definition append (W : Z) (prev : list SpectrumData) (snapshot : SpectrumData)
    : list SpectrumData :=
  historyUpdater W (timestamp snapshot) snapshot prev.

(** A run of appends on a history. *)
Definition appendAll (W : Z) (prev : list SpectrumData)
    (snapshots : list SpectrumData) : list SpectrumData :=
  fold_left (append W) snapshots prev.

(** [snapshots()]: the current sequence, oldest first. *)
Definition snapshots (h : list SpectrumData) : list SpectrumData := h.

(** Two snapshots compared by their timestamps. *)
Definition byTime (R : Z -> Z -> Prop) (d e : SpectrumData) : Prop :=
  R (timestamp d) (timestamp e).

End History.
Import History.

(* ================================================================== *)
(** ** The canvas and the drawing routines (lines 110-228) *)
(* ================================================================== *)

(** A read of [dataArray] is made explicit: [OutOfRange i] records a read at
    an index outside the array (JavaScript would answer [undefined]). *)
Inductive Result (A : Type) : Type :=
| Ok (a : A)
| OutOfRange (index : Z).
Arguments OutOfRange {A} index.

Definition bind {A B} (r : Result A) (k : A -> Result B) : Result B :=
  match r with
  | Ok a => k a
  | OutOfRange i => OutOfRange i
  end.

Notation "x <- r ;; k" := (bind r (fun x => k))
  (at level 61, r at next level, right associativity).

(** The [<canvas>] element: its [width] and [height] attributes and whether
    [getContext('2d')] answers a context. *)
Record Canvas : Type := {
  width : Z;
  height : Z;
  has2d : bool
}.

(** [const CANVAS_WIDTH = 800; const CANVAS_HEIGHT = 400]. *)
Definition CANVAS_WIDTH : Z := 800.
Definition CANVAS_HEIGHT : Z := 400.
(** [const FFT_SIZE = 2048]. *)
Definition FFT_SIZE : Z := 2048.

(** The columns visited by
    [for (let pixelX = 0; pixelX < canvas.width; pixelX += 2)]. *)
Definition pixelColumns (canvasWidth : Z) : list Z :=
  map (fun k => 2 * Z.of_nat k) (seq 0 (Z.to_nat ((canvasWidth + 1) / 2))).

Section Drawing.

Context {N : Type} {arith : Arith N}.

(** [fillStyle] / [strokeStyle]: a CSS colour given literally, or the
    template [hsl(hue, 100%, lightness%)]. *)
Inductive Style : Type :=
| Css (colour : String.string)
| Hsl (hue lightness : N).

(** The primitives issued on the 2D context, each with the style in force. *)
Inductive DrawOp : Type :=
| FillRect (fillStyle : Style) (x y w h : N)
| StrokeLine (strokeStyle : Style) (lineWidth : N) (x0 y0 x1 y1 : N)
| FillText (fillStyle : Style) (text : String.string) (x y : N).

(** [AudioContext]: its identity and its [sampleRate]. *)
Record AudioContext : Type := {
  contextId : Z;
  sampleRate : N
}.

Local Open Scope js_scope.

(** Spec name for line 203 and 209:
    [canvas.width - (age * (canvas.width / timeRange))]. *)
Definition ageToX (ageMs canvasWidth retentionMs : N) : N :=
  let pixelsPerMs := canvasWidth / retentionMs in
  canvasWidth - (ageMs * pixelsPerMs).

(** [data.frequencies.forEach((amplitude, freqIndex) => ...)]. *)
Fixpoint forEachIndexed {A B} (f : A -> Z -> list B) (l : list A) (index : Z) : list B :=
  match l with
  | [] => []
  | a :: rest => f a index ++ forEachIndexed f rest (index + 1)%Z
  end.

(** [drawSpectrogram], with the [Date.now()] it reads as [now]. *)
Definition drawSpectrogram (canvas : Canvas) (now : Z)
    (spectrumHistory : list SpectrumData) : list DrawOp :=
  if (Z.of_nat (length spectrumHistory) =? 0)%Z then []
  else
    let spectrogramHeight := ofZ (height canvas) / ofZ 3 in
    let spectrogramY := ofZ (height canvas) - spectrogramHeight in
    let timeRange := HISTORY_DURATION in
    flat_map (fun data =>
      let age := (now - timestamp data)%Z in
      if (age >? timeRange)%Z then []
      else
        let x := ageToX (ofZ age) (ofZ (width canvas)) (ofZ timeRange) in
        let freqStep :=
          spectrogramHeight / ofZ (Z.of_nat (length (frequencies data))) in
        forEachIndexed (fun amplitude freqIndex =>
          let y := spectrogramY + (ofZ freqIndex * freqStep) in
          let intensity := ofZ amplitude / ofZ 255 in
          let hue := ofZ 240 - (intensity * ofZ 240) in
          [FillRect (Hsl hue (ofZ 50 * intensity)) x y (ofZ 2) freqStep])
          (frequencies data) 0%Z)
      spectrumHistory
    ++ [FillText (Css "#fff") "Now"
          (ofZ (width canvas) - ofZ 30) (spectrogramY - ofZ 5);
        FillText (Css "#fff") "5 min ago" (ofZ 10) (spectrogramY - ofZ 5)].

Context {libm : Libm N}.

(** Lines 136-140 and 170-174: the logarithmic range from 20 Hz to Nyquist. *)
Definition logMinFreq : N := log10 (ofZ 20).
Definition logRange (nyquist : N) : N := log10 nyquist - logMinFreq.

(** Line 176-177, for any frequency:
    [((Math.log10(freq) - logMinFreq) / logRange) * canvas.width]. *)
Definition frequencyToX (nyquist : N) (canvasWidth : Z) (freq : N) : N :=
  ((log10 freq - logMinFreq) / logRange nyquist) * ofZ canvasWidth.

(** Lines 147-148: the frequency shown at a pixel column. *)
Definition xToFrequency (nyquist : N) (canvasWidth : Z) (pixelX : N) : N :=
  let logFreq := logMinFreq + (pixelX / ofZ canvasWidth) * logRange nyquist in
  pow (ofZ 10) logFreq.

(** Line 151: [Math.round(freq / frequencyPerBin)]. *)
Definition xToFrequencyBinIndex (nyquist : N) (canvasWidth : Z) (pixelX : N)
    (frequencyPerBin : N) : option Z :=
  round (xToFrequency nyquist canvasWidth pixelX / frequencyPerBin).

(** The body of the loop of [drawLogSpectrum] at one column. *)
Definition drawBar (canvas : Canvas) (nyquist frequencyPerBin : N)
    (dataArray : list Z) (bufferLength : Z) (pixelX : Z) : Result (list DrawOp) :=
  match xToFrequencyBinIndex nyquist (width canvas) (ofZ pixelX) frequencyPerBin with
  | Some binIndex =>
      if ((binIndex >=? 0) && (binIndex <? bufferLength))%Z then
        match nth_error dataArray (Z.to_nat binIndex) with
        | Some amplitude =>
            let barHeight := (ofZ amplitude / ofZ 255) * ofZ (height canvas) in
            Ok [FillRect (Css "#00ff00") (ofZ pixelX)
                  (ofZ (height canvas) - barHeight) (ofZ 2) barHeight]
        | None => OutOfRange binIndex
        end
      else Ok []
  | None => Ok []
  end.

(** A loop whose body issues drawing commands. *)
Fixpoint forEachColumn (body : Z -> Result (list DrawOp)) (columns : list Z)
    : Result (list DrawOp) :=
  match columns with
  | [] => Ok []
  | pixelX :: rest =>
      ops <- body pixelX ;;
      more <- forEachColumn body rest ;;
      Ok (ops ++ more)
  end.

(** [drawLogSpectrum]. *)
Definition drawLogSpectrum (canvas : Canvas) (audioContextRef : option AudioContext)
    (dataArray : list Z) (bufferLength : Z) : Result (list DrawOp) :=
  match audioContextRef with
  | None => Ok []
  | Some audioContext =>
      let nyquist := sampleRate audioContext / ofZ 2 in
      let frequencyPerBin := nyquist / ofZ bufferLength in
      forEachColumn (drawBar canvas nyquist frequencyPerBin dataArray bufferLength)
        (pixelColumns (width canvas))
  end.

(** [draw220HzLine]: the stroke from [(x, 0)] to [(x, canvas.height * 2/3)]
    and the label. *)
Definition draw220HzLine (canvas : Canvas) (audioContextRef : option AudioContext)
    : list DrawOp :=
  match audioContextRef with
  | None => []
  | Some audioContext =>
      let nyquist := sampleRate audioContext / ofZ 2 in
      let x := frequencyToX nyquist (width canvas) (ofZ 220) in
      [StrokeLine (Css "#ffffff") (ofZ 2) x (ofZ 0) x
         (ofZ (height canvas) * ofZ 2 / ofZ 3);
       FillText (Css "#ffffff") "220Hz" (x + ofZ 5) (ofZ 15)]
  end.

(** [drawSpectrum]: clear, bars, reference line, spectrogram. *)
Definition drawSpectrum (canvas : Canvas) (audioContextRef : option AudioContext)
    (dataArray : list Z) (bufferLength : Z) (now : Z)
    (spectrumHistory : list SpectrumData) : Result (list DrawOp) :=
  bars <- drawLogSpectrum canvas audioContextRef dataArray bufferLength ;;
  Ok (FillRect (Css "#000") (ofZ 0) (ofZ 0) (ofZ (width canvas)) (ofZ (height canvas))
      :: bars
      ++ draw220HzLine canvas audioContextRef
      ++ drawSpectrogram canvas now spectrumHistory).

End Drawing.

Arguments Style N : clear implicits.
Arguments DrawOp N : clear implicits.
Arguments AudioContext N : clear implicits.

(* ================================================================== *)
(** ** The component and its host (lines 12-108) *)
(* ================================================================== *)

(** [MediaStream]: its identity and the ids of its tracks. *)
Record MediaStream : Type := {
  streamId : Z;
  tracks : list Z
}.

(** [AnalyserNode]; [frequencyBinCount] is half of [fftSize]. *)
Record AnalyserNode : Type := {
  fftSize : Z
}.

Definition frequencyBinCount (analyser : AnalyserNode) : Z := fftSize analyser / 2.

(** What one run of [animate] reads from outside: [Date.now()] at line 94,
    the bytes the analyser delivers, and [Date.now()] at line 201. *)
Record FrameInput : Type := {
  clock : Z;
  sample : list Z;
  drawClock : Z
}.

(** [new Uint8Array(bufferLength)] filled by [getByteFrequencyData]: exactly
    [bufferLength] bytes, zero where the analyser delivered none. *)
Definition getByteFrequencyData (delivered : list Z) (bufferLength : Z) : list Z :=
  firstn (Z.to_nat bufferLength) (delivered ++ repeat 0 (Z.to_nat bufferLength)).

Section Lifecycle.

Context {N : Type} {arith : Arith N}.

(** The refs and the state of the component.  [canvasRef] is the mounted
    canvas, if any. *)
Record Component : Type := {
  canvasRef : option Canvas;
  audioContextRef : option (AudioContext N);
  analyserRef : option AnalyserNode;
  streamRef : option MediaStream;
  animationRef : Z;
  spectrumHistory : list SpectrumData;
  isActive : bool
}.

(** The host: tracks that are capturing, audio contexts not yet closed,
    animation-frame requests not yet run or cancelled (each with the
    [spectrumHistory] bound in the [animate] closure it registered), the next
    request handle, the number of [console.error] calls, and what was drawn. *)
Record Host : Type := {
  liveTracks : list Z;
  openContexts : list Z;
  pendingFrames : list (Z * list SpectrumData);
  nextHandle : Z;
  consoleErrors : nat;
  surface : list (DrawOp N)
}.

Record World : Type := {
  component : Component;
  host : Host
}.

(** *** Assignments to refs and state *)

Definition set_audioContextRef (v : option (AudioContext N)) (c : Component) : Component :=
  {| canvasRef := canvasRef c; audioContextRef := v; analyserRef := analyserRef c;
     streamRef := streamRef c; animationRef := animationRef c;
     spectrumHistory := spectrumHistory c; isActive := isActive c |}.

Definition set_analyserRef (v : option AnalyserNode) (c : Component) : Component :=
  {| canvasRef := canvasRef c; audioContextRef := audioContextRef c; analyserRef := v;
     streamRef := streamRef c; animationRef := animationRef c;
     spectrumHistory := spectrumHistory c; isActive := isActive c |}.

Definition set_streamRef (v : option MediaStream) (c : Component) : Component :=
  {| canvasRef := canvasRef c; audioContextRef := audioContextRef c;
     analyserRef := analyserRef c; streamRef := v; animationRef := animationRef c;
     spectrumHistory := spectrumHistory c; isActive := isActive c |}.

Definition set_animationRef (v : Z) (c : Component) : Component :=
  {| canvasRef := canvasRef c; audioContextRef := audioContextRef c;
     analyserRef := analyserRef c; streamRef := streamRef c; animationRef := v;
     spectrumHistory := spectrumHistory c; isActive := isActive c |}.

Definition setSpectrumHistory (updater : list SpectrumData -> list SpectrumData)
    (c : Component) : Component :=
  {| canvasRef := canvasRef c; audioContextRef := audioContextRef c;
     analyserRef := analyserRef c; streamRef := streamRef c;
     animationRef := animationRef c;
     spectrumHistory := updater (spectrumHistory c); isActive := isActive c |}.

Definition setIsActive (v : bool) (c : Component) : Component :=
  {| canvasRef := canvasRef c; audioContextRef := audioContextRef c;
     analyserRef := analyserRef c; streamRef := streamRef c;
     animationRef := animationRef c;
     spectrumHistory := spectrumHistory c; isActive := v |}.

(** *** Host calls *)

Definition set_pendingFrames (v : list (Z * list SpectrumData)) (h : Host) : Host :=
  {| liveTracks := liveTracks h; openContexts := openContexts h; pendingFrames := v;
     nextHandle := nextHandle h; consoleErrors := consoleErrors h; surface := surface h |}.

Definition cancelAnimationFrame (handle : Z) (h : Host) : Host :=
  set_pendingFrames (filter (fun p => negb (fst p =? handle)) (pendingFrames h)) h.

Definition requestAnimationFrame (bound : list SpectrumData) (h : Host) : Z * Host :=
  (nextHandle h,
   {| liveTracks := liveTracks h; openContexts := openContexts h;
      pendingFrames := pendingFrames h ++ [(nextHandle h, bound)];
      nextHandle := nextHandle h + 1;
      consoleErrors := consoleErrors h; surface := surface h |}).

Definition set_liveTracks (v : list Z) (h : Host) : Host :=
  {| liveTracks := v; openContexts := openContexts h; pendingFrames := pendingFrames h;
     nextHandle := nextHandle h; consoleErrors := consoleErrors h; surface := surface h |}.

Definition set_openContexts (v : list Z) (h : Host) : Host :=
  {| liveTracks := liveTracks h; openContexts := v; pendingFrames := pendingFrames h;
     nextHandle := nextHandle h; consoleErrors := consoleErrors h; surface := surface h |}.

(** [stream.getTracks().forEach(track => track.stop())]. *)
Definition stopTracks (stream : MediaStream) (h : Host) : Host :=
  set_liveTracks
    (filter (fun t => negb (existsb (Z.eqb t) (tracks stream))) (liveTracks h)) h.

(** [audioContext.close()]. *)
Definition closeContext (audioContext : AudioContext N) (h : Host) : Host :=
  set_openContexts
    (filter (fun c => negb (c =? contextId audioContext)) (openContexts h)) h.

(** [getUserMedia] resolved with [stream]: its tracks are capturing. *)
Definition startTracks (stream : MediaStream) (h : Host) : Host :=
  set_liveTracks (tracks stream ++ liveTracks h) h.

(** [new AudioContext()] answered [audioContext]. *)
Definition openContext (audioContext : AudioContext N) (h : Host) : Host :=
  set_openContexts (contextId audioContext :: openContexts h) h.

Definition consoleError (h : Host) : Host :=
  {| liveTracks := liveTracks h; openContexts := openContexts h;
     pendingFrames := pendingFrames h; nextHandle := nextHandle h;
     consoleErrors := S (consoleErrors h); surface := surface h |}.

Definition paint (ops : list (DrawOp N)) (h : Host) : Host :=
  {| liveTracks := liveTracks h; openContexts := openContexts h;
     pendingFrames := pendingFrames h; nextHandle := nextHandle h;
     consoleErrors := consoleErrors h; surface := surface h ++ ops |}.

(** *** [stopAudioAnalysis] (lines 63-80) *)

Definition stopAudioAnalysis (w : World) : World :=
  let c := component w in
  let h := host w in
  let h := if animationRef c =? 0 then h else cancelAnimationFrame (animationRef c) h in
  let '(c, h) :=
    match streamRef c with
    | Some stream => (set_streamRef None c, stopTracks stream h)
    | None => (c, h)
    end in
  let '(c, h) :=
    match audioContextRef c with
    | Some audioContext => (set_audioContextRef None c, closeContext audioContext h)
    | None => (c, h)
    end in
  let c := set_analyserRef None c in
  {| component := setIsActive false c; host := h |}.

Context {libm : Libm N}.

(** *** [animate] (lines 82-108)

    [bound] is the [spectrumHistory] of the closure: the drawing code reads
    the value bound when the closure was made, the updater receives the
    current state. *)
Definition animate (input : FrameInput) (bound : list SpectrumData) (w : World)
    : Result World :=
  let c := component w in
  match analyserRef c, canvasRef c with
  | Some analyser, Some canvas =>
      if has2d canvas then
        let bufferLength := frequencyBinCount analyser in
        let dataArray := getByteFrequencyData (sample input) bufferLength in
        let now := clock input in
        let newSpectrumData := {| timestamp := now; frequencies := dataArray |} in
        let c := setSpectrumHistory
                   (historyUpdater HISTORY_DURATION now newSpectrumData) c in
        ops <- drawSpectrum canvas (audioContextRef c) dataArray bufferLength
                 (drawClock input) bound ;;
        let '(handle, h) := requestAnimationFrame bound (paint ops (host w)) in
        Ok {| component := set_animationRef handle c; host := h |}
      else Ok w
  | _, _ => Ok w
  end.

(** The host runs the oldest pending animation-frame request, if any. *)
Definition runFrame (input : FrameInput) (w : World) : option (Result World) :=
  match pendingFrames (host w) with
  | [] => None
  | (_, bound) :: rest =>
      Some (animate input bound
              {| component := component w; host := set_pendingFrames rest (host w) |})
  end.

(** Frames run one after the other, as long as one is pending; the count is
    the number of callbacks that ran. *)
Fixpoint runFrames (inputs : list FrameInput) (w : World) : Result (World * nat) :=
  match inputs with
  | [] => Ok (w, 0%nat)
  | input :: more =>
      match runFrame input w with
      | None => Ok (w, 0%nat)
      | Some r =>
          w' <- r ;;
          rest <- runFrames more w' ;;
          Ok (fst rest, S (snd rest))
      end
  end.

(** *** [startAudioAnalysis] (lines 36-61)

    How the [try] block ends: [getUserMedia] rejects; [new AudioContext()]
    throws with the stream already held; [createMediaStreamSource] or
    [connect] throws with stream, context and analyser held; or nothing
    throws. *)
Inductive Acquisition : Type :=
| GetUserMediaRejects
| NewAudioContextThrows (stream : MediaStream)
| ConnectThrows (stream : MediaStream) (audioContext : AudioContext N)
| Acquired (stream : MediaStream) (audioContext : AudioContext N).

Definition holdStream (stream : MediaStream) (w : World) : World :=
  {| component := set_streamRef (Some stream) (component w);
     host := startTracks stream (host w) |}.

Definition holdContext (audioContext : AudioContext N) (w : World) : World :=
  {| component := set_audioContextRef (Some audioContext) (component w);
     host := openContext audioContext (host w) |}.

Definition holdAnalyser (w : World) : World :=
  {| component := set_analyserRef (Some {| fftSize := FFT_SIZE |}) (component w);
     host := host w |}.

(** The [catch] block: [console.error(...); setIsActive(false)]. *)
Definition catchError (w : World) : World :=
  {| component := setIsActive false (component w); host := consoleError (host w) |}.

(** The function from the point where [await getUserMedia] settles; the code
    before it only builds the constraints. *)
Definition startAudioAnalysis (acquisition : Acquisition) (input : FrameInput)
    (bound : list SpectrumData) (w : World) : Result World :=
  match acquisition with
  | GetUserMediaRejects => Ok (catchError w)
  | NewAudioContextThrows stream => Ok (catchError (holdStream stream w))
  | ConnectThrows stream audioContext =>
      Ok (catchError (holdAnalyser (holdContext audioContext (holdStream stream w))))
  | Acquired stream audioContext =>
      let w := holdAnalyser (holdContext audioContext (holdStream stream w)) in
      animate input bound
        {| component := setIsActive true (component w); host := host w |}
  end.

(** *** States of the life cycle *)

(** No resources held and no frame pending. *)
Definition Idle (w : World) : Prop :=
  streamRef (component w) = None
  /\ audioContextRef (component w) = None
  /\ analyserRef (component w) = None
  /\ pendingFrames (host w) = []
  /\ 0 < nextHandle (host w).

(** Stream, context and analyser held; the frame loop has at most its one
    request pending, and [animationRef] is its handle. *)
Definition Active (w : World) : Prop :=
  (exists stream, streamRef (component w) = Some stream)
  /\ (exists audioContext, audioContextRef (component w) = Some audioContext)
  /\ (exists analyser, analyserRef (component w) = Some analyser)
  /\ (pendingFrames (host w) = []
      \/ exists bound, pendingFrames (host w) = [(animationRef (component w), bound)]
                       /\ animationRef (component w) <> 0)
  /\ 0 < nextHandle (host w).

(** The sampler or the drawing surface is not ready (lines 83 and 87). *)
Definition notReady (w : World) : Prop :=
  analyserRef (component w) = None
  \/ canvasRef (component w) = None
  \/ exists canvas, canvasRef (component w) = Some canvas /\ has2d canvas = false.

(** A request is pending in [w'] that was not pending in [w]. *)
Definition nextFrameScheduled (w w' : World) : Prop :=
  exists request, In request (pendingFrames (host w'))
                  /\ ~ In request (pendingFrames (host w)).

(** The acquisition threw. *)
Definition threw (acquisition : Acquisition) : Prop :=
  match acquisition with
  | Acquired _ _ => False
  | _ => True
  end.

(** Every track of [stream] has stopped and [audioContext] is closed. *)
Definition streamReleased (stream : MediaStream) (w : World) : Prop :=
  forall t, In t (tracks stream) -> ~ In t (liveTracks (host w)).

Definition contextReleased (audioContext : AudioContext N) (w : World) : Prop :=
  ~ In (contextId audioContext) (openContexts (host w)).

(** What the [try] block had acquired when it ended. *)
Definition acquiredStream (acquisition : Acquisition) : option MediaStream :=
  match acquisition with
  | GetUserMediaRejects => None
  | NewAudioContextThrows stream => Some stream
  | ConnectThrows stream _ => Some stream
  | Acquired stream _ => Some stream
  end.

Definition acquiredContext (acquisition : Acquisition) : option (AudioContext N) :=
  match acquisition with
  | GetUserMediaRejects => None
  | NewAudioContextThrows _ => None
  | ConnectThrows _ audioContext => Some audioContext
  | Acquired _ audioContext => Some audioContext
  end.

(** *** The effect on [selectedMicrophone] (lines 26-34) and the
    constraints of lines 38-40 *)

(** The argument of [getUserMedia]: [{ audio: { deviceId: { exact } } }] or
    [{ audio: true }]. *)
Inductive Constraints : Type :=
| ExactDevice (deviceId : String.string)
| AnyAudioInput.

(** Lines 38-40; the empty string is the falsy selection. *)
Definition constraintsFor (selectedMicrophone : String.string) : Constraints :=
  if String.eqb selectedMicrophone "" then AnyAudioInput
  else ExactDevice selectedMicrophone.

(** [startAudioAnalysis] with the media layer's answer a function of the
    constraints it is asked with. *)
Definition startAudioAnalysisFor (selectedMicrophone : String.string)
    (media : Constraints -> Acquisition) (input : FrameInput)
    (bound : list SpectrumData) (w : World) : Result World :=
  startAudioAnalysis (media (constraintsFor selectedMicrophone)) input bound w.

(** The body of the effect (lines 27-32). *)
Definition effect (selectedMicrophone : String.string)
    (media : Constraints -> Acquisition) (input : FrameInput)
    (bound : list SpectrumData) (w : World) : Result World :=
  if String.eqb selectedMicrophone "" then Ok (stopAudioAnalysis w)
  else startAudioAnalysisFor selectedMicrophone media input bound w.

(** The cleanup the effect returned (line 33); the body that returned at
    line 29 left none. *)
Definition cleanup (selectedMicrophone : String.string) (w : World) : World :=
  if String.eqb selectedMicrophone "" then w else stopAudioAnalysis w.

(** [selectedMicrophone] changes from [previous] to [next]: the cleanup of
    the previous effect runs, then the new effect; the acquisition is taken
    to settle before anything else happens. *)
Definition selectionChanged (previous next : String.string)
    (media : Constraints -> Acquisition) (input : FrameInput)
    (bound : list SpectrumData) (w : World) : Result World :=
  effect next media input bound (cleanup previous w).

(** Line 237, shown when the history is not empty (line 235):
    [Math.round((Date.now() - spectrumHistory[0]?.timestamp) / 1000)]. *)
Definition historyReadout (now : Z) (history : list SpectrumData) : option Z :=
  match history with
  | [] => None
  | oldest :: _ => round (ofZ (now - timestamp oldest) / ofZ 1000)%js
  end.

End Lifecycle.

Arguments Component N : clear implicits.
Arguments Host N : clear implicits.
Arguments World N : clear implicits.
Arguments Acquisition N : clear implicits.

(** *** Concrete states, in real arithmetic *)

(** The canvas the component renders: 800 by 400, with a 2D context. *)
Definition theCanvas : Canvas :=
  {| width := CANVAS_WIDTH; height := CANVAS_HEIGHT; has2d := true |}.

(** An audio context at 44100 Hz and a stream with one track. *)
Definition context44100 : AudioContext R := {| contextId := 1; sampleRate := 44100%R |}.
Definition oneTrackStream : MediaStream := {| streamId := 1; tracks := [10] |}.

(** The mounted component before any microphone is selected. *)
Definition idleWorld : World R :=
  {| component :=
       {| canvasRef := Some theCanvas; audioContextRef := None; analyserRef := None;
          streamRef := None; animationRef := 0; spectrumHistory := [];
          isActive := false |};
     host :=
       {| liveTracks := []; openContexts := []; pendingFrames := [];
          nextHandle := 1; consoleErrors := 0; surface := [] |} |}.

(** A running session between two frames: request 7 is pending. *)
Definition activeWorld : World R :=
  {| component :=
       {| canvasRef := Some theCanvas; audioContextRef := Some context44100;
          analyserRef := Some {| fftSize := FFT_SIZE |};
          streamRef := Some oneTrackStream; animationRef := 7;
          spectrumHistory := []; isActive := true |};
     host :=
       {| liveTracks := [10]; openContexts := [1]; pendingFrames := [(7, [])];
          nextHandle := 8; consoleErrors := 0; surface := [] |} |}.

Definition quietFrame : FrameInput :=
  {| clock := 1000; sample := []; drawClock := 1000 |}.

(** The layout of the caption and of the comments at lines 184 and 197: a
    primitive stays in the top two-thirds of the canvas when its vertical
    extent does. *)
Definition withinTopTwoThirds (canvas : Canvas) (op : DrawOp R) : Prop :=
  let limit := (2 / 3 * IZR (height canvas))%R in
  match op with
  | FillRect _ _ y _ h => (0 <= y /\ y + h <= limit)%R
  | StrokeLine _ _ _ y0 _ y1 => (0 <= y0 <= limit /\ 0 <= y1 <= limit)%R
  | FillText _ _ _ y => (0 <= y <= limit)%R
  end.

(** A filled rectangle stays in the bottom third (the labels of the
    spectrogram are text, set just above the band). *)
Definition withinBottomThird (canvas : Canvas) (op : DrawOp R) : Prop :=
  match op with
  | FillRect _ _ y _ h =>
      (2 / 3 * IZR (height canvas) <= y /\ y + h <= IZR (height canvas))%R
  | _ => True
  end.


(** A primitive of the spectrogram layer: a cell (the only fills styled by
    [hsl]) or one of its two labels. *)
Definition spectrogramOp {N : Type} (op : DrawOp N) : Prop :=
  match op with
  | FillRect (Hsl _ _) _ _ _ _ => True
  | FillText _ text _ _ => text = "Now"%string \/ text = "5 min ago"%string
  | _ => False
  end.

(* ================================================================== *)
(** ** The microphone selector (unnamed/part_000) *)
(* ================================================================== *)

Module MicrophoneSelector.

(** [interface MediaDeviceInfo] (lines 8-11). *)
Record MediaDeviceInfo : Type := {
  deviceId : String.string;
  label : String.string
}.

(** One entry of what [enumerateDevices] resolves with. *)
Record Device : Type := {
  kind : String.string;
  device_deviceId : String.string;
  device_label : String.string
}.

(** The three pieces of state (lines 14-16). *)
Record State : Type := {
  microphones : list MediaDeviceInfo;
  isLoading : bool;
  error : option String.string
}.

(** What was thrown: an [Error] with its message, or any other value. *)
Inductive Thrown : Type :=
| ErrorObject (message : String.string)
| NotAnError.

(** How the [try] block of [getMicrophones] ends: [getUserMedia] rejects;
    [enumerateDevices] rejects after the probing stream was opened and
    stopped; or the devices are listed. *)
Inductive Probing : Type :=
| PermissionRejected (err : Thrown)
| EnumerationRejected (stream : MediaStream) (err : Thrown)
| Enumerated (stream : MediaStream) (devices : list Device).

(** Line 35: [err instanceof Error ? err.message : 'Failed to access microphones']. *)
Definition errorMessage (err : Thrown) : String.string :=
  match err with
  | ErrorObject message => message
  | NotAnError => "Failed to access microphones"
  end.

(** Lines 27-30: the entry made of an audio input. *)
Definition describe (device : Device) : MediaDeviceInfo :=
  {| deviceId := device_deviceId device;
     label :=
       if String.eqb (device_label device) "" then
         String.append "Microphone " (String.substring 0 8 (device_deviceId device))
       else device_label device |}.

(** Lines 21-22: the probing stream is opened and every track of it is
    stopped at once. *)
Definition probe (stream : MediaStream) (liveTracks : list Z) : list Z :=
  filter (fun t => negb (existsb (Z.eqb t) (tracks stream)))
    (tracks stream ++ liveTracks).

(** [getMicrophones] (lines 19-39) on the state and the tracks that are
    capturing. *)
Definition getMicrophones (probing : Probing) (st : State) (liveTracks : list Z)
    : State * list Z :=
  match probing with
  | PermissionRejected err =>
      ({| microphones := microphones st; isLoading := false;
          error := Some (errorMessage err) |}, liveTracks)
  | EnumerationRejected stream err =>
      ({| microphones := microphones st; isLoading := false;
          error := Some (errorMessage err) |}, probe stream liveTracks)
  | Enumerated stream devices =>
      let audioInputs :=
        map describe
          (filter (fun device => String.eqb (kind device) "audioinput") devices) in
      ({| microphones := audioInputs; isLoading := false; error := None |},
       probe stream liveTracks)
  end.

(** What the component renders (lines 44-66): the loading note, the error
    note, or the [select] with its value and one option (key, text) per
    microphone.  [if (error)] takes the empty message for no error. *)
Inductive View : Type :=
| LoadingNote
| ErrorNote (message : String.string)
| SelectBox (value : String.string) (options : list (String.string * String.string)).

Definition render (st : State) (selectedMicrophone : String.string) : View :=
  if isLoading st then LoadingNote
  else
    let selectBox :=
      SelectBox selectedMicrophone
        (map (fun mic => (deviceId mic, label mic)) (microphones st)) in
    match error st with
    | Some message => if String.eqb message "" then selectBox else ErrorNote message
    | None => selectBox
    end.

(** The state the component mounts with. *)
Definition initialState : State :=
  {| microphones := []; isLoading := true; error := None |}.

End MicrophoneSelector.

Unset Implicit Arguments.

(* ================================================================== *)
(** ** Properties of the history buffer *)
(* ================================================================== *)

Section HistoryFacts.

Variable W : Z.

Lemma historyUpdater_within (now : Z) (d : SpectrumData) (prev : list SpectrumData) :
  Forall (fun e => now - timestamp e <= W) (historyUpdater W now d prev).
Proof.
  unfold historyUpdater.
  apply Forall_forall. intros e He.
  apply filter_In in He. destruct He as [_ He].
  now apply Z.leb_le.
Qed.

Lemma appendAll_snoc (prev snaps : list SpectrumData) (d : SpectrumData) :
  appendAll W prev (snaps ++ [d]) = append W (appendAll W prev snaps) d.
Proof. unfold appendAll. now rewrite fold_left_app. Qed.

Lemma append_length (prev : list SpectrumData) (d : SpectrumData) :
  (length (append W prev d) <= S (length prev))%nat.
Proof.
  unfold append, historyUpdater.
  etransitivity; [apply filter_length_le|].
  rewrite length_app. simpl. lia.
Qed.

Lemma appendAll_length (snaps prev : list SpectrumData) :
  (length (appendAll W prev snaps) <= length prev + length snaps)%nat.
Proof.
  revert prev. induction snaps as [|d snaps IH]; intros prev; simpl.
  - lia.
  - specialize (IH (append W prev d)).
    pose proof (append_length prev d). lia.
Qed.

(** Filtering keeps a sorted list sorted. *)
Lemma StronglySorted_filter {A} (R : A -> A -> Prop) (p : A -> bool) (l : list A) :
  StronglySorted R l -> StronglySorted R (filter p l).
Proof.
  induction 1 as [|a l Hs IH Ha]; simpl.
  - constructor.
  - destruct (p a).
    + constructor; [exact IH|].
      apply Forall_forall. intros x Hx.
      apply filter_In in Hx.
      rewrite Forall_forall in Ha. now apply Ha.
    + exact IH.
Qed.

Lemma StronglySorted_snoc {A} (R : A -> A -> Prop) (l : list A) (a : A) :
  StronglySorted R l -> Forall (fun x => R x a) l -> StronglySorted R (l ++ [a]).
Proof.
  induction 1 as [|b l Hs IH Hb]; intros Hall; simpl.
  - repeat constructor.
  - inversion Hall as [|? ? Hba Hl]; subst.
    constructor; [now apply IH|].
    apply Forall_app. split; [exact Hb|]. now repeat constructor.
Qed.

Definition byTime (R : Z -> Z -> Prop) (d e : SpectrumData) : Prop :=
  R (timestamp d) (timestamp e).

(** The loop invariant of a run of appends at non-decreasing times: the
    buffer is sorted and nothing in it is newer than the last append. *)
Lemma appendAll_sorted (snaps prev : list SpectrumData) (bound : Z) :
  StronglySorted (byTime Z.le) prev ->
  Forall (fun e => timestamp e <= bound) prev ->
  StronglySorted (byTime Z.le) snaps ->
  Forall (fun d => bound <= timestamp d) snaps ->
  StronglySorted (byTime Z.le) (appendAll W prev snaps).
Proof.
  revert prev bound.
  induction snaps as [|d snaps IH]; intros prev bound Hp Hb Hs Hd; simpl.
  - exact Hp.
  - inversion Hs as [|? ? Hs' Hd']; subst.
    inversion Hd as [|? ? Hbd Hd'']; subst.
    apply (IH _ (timestamp d)).
    + unfold append, historyUpdater.
      apply StronglySorted_filter, StronglySorted_snoc; [exact Hp|].
      eapply Forall_impl; [|exact Hb]. unfold byTime. simpl. intros; lia.
    + unfold append, historyUpdater.
      apply Forall_forall. intros e He.
      apply filter_In in He. destruct He as [He _].
      apply in_app_or in He. destruct He as [He|[<-|[]]]; [|lia].
      rewrite Forall_forall in Hb. specialize (Hb _ He). lia.
    + exact Hs'.
    + exact Hd'.
Qed.

End HistoryFacts.

(** C1. For every retention window [W], every history reached by a run of
    appends and every further append, each snapshot retained right after
    that append has age [now - timestamp <= W], where [now] is the time of
    the append; the same holds for the updater of the program, whose window
    [HISTORY_DURATION] is 300000 ms. *)
Theorem append_retains_only_recent :
  (forall (W : Z) (snaps : list SpectrumData) (d : SpectrumData),
      Forall (fun e => timestamp d - timestamp e <= W)
             (snapshots (appendAll W [] (snaps ++ [d]))))
  /\ (forall (W now : Z) (freqs : list Z) (prev : list SpectrumData),
      Forall (fun e => now - timestamp e <= W)
             (historyUpdater W now {| timestamp := now; frequencies := freqs |} prev))
  /\ HISTORY_DURATION = 300000.
Proof.
  split; [|split].
  - intros W snaps d. rewrite appendAll_snoc. apply historyUpdater_within.
  - intros. apply historyUpdater_within.
  - reflexivity.
Qed.

(** C6. Appending [N] snapshots at strictly increasing timestamps to the
    empty history gives a history whose [snapshots()] is sorted ascending by
    timestamp (indeed strictly) and has at most [N] entries. *)
Theorem appends_sorted_and_bounded (W : Z) (snaps : list SpectrumData)
    (Hinc : StronglySorted (byTime Z.lt) snaps) :
  StronglySorted (byTime Z.le) (snapshots (appendAll W [] snaps))
  /\ (length (snapshots (appendAll W [] snaps)) <= length snaps)%nat.
Proof.
  split.
  - destruct snaps as [|d0 rest].
    + constructor.
    + apply (appendAll_sorted W _ _ (timestamp d0)).
      * constructor.
      * constructor.
      * clear -Hinc. induction Hinc as [|a l Hs IH Ha]; constructor; [exact IH|].
        eapply Forall_impl; [|exact Ha]. unfold byTime. intros; lia.
      * inversion Hinc as [|? ? _ Ha]; subst. constructor; [lia|].
        eapply Forall_impl; [|exact Ha]. unfold byTime. intros; lia.
  - apply (appendAll_length W snaps []).
Qed.

Lemma appends_sorted_and_bounded_witness :
  let snaps := [ {| timestamp := 0; frequencies := [1] |};
                 {| timestamp := 200000; frequencies := [2] |};
                 {| timestamp := 400000; frequencies := [3] |} ] in
  StronglySorted (byTime Z.lt) snaps
  /\ StronglySorted (byTime Z.le) (snapshots (appendAll HISTORY_DURATION [] snaps))
  /\ (length (snapshots (appendAll HISTORY_DURATION [] snaps)) <= length snaps)%nat.
Proof.
  intros snaps.
  assert (H : StronglySorted (byTime Z.lt) snaps).
  { unfold snaps, byTime. repeat constructor; simpl; lia. }
  split; [exact H|].
  exact (appends_sorted_and_bounded HISTORY_DURATION snaps H).
Defined.

(* ================================================================== *)
(** ** Properties of the drawing routines, for any arithmetic *)
(* ================================================================== *)

Lemma getByteFrequencyData_length (delivered : list Z) (bufferLength : Z) :
  length (getByteFrequencyData delivered bufferLength) = Z.to_nat bufferLength.
Proof.
  unfold getByteFrequencyData.
  rewrite length_firstn, length_app, repeat_length. lia.
Qed.

Section DrawingFacts.

Context {N : Type} {arith : Arith N} {libm : Libm N}.

Lemma drawBar_in_bounds (canvas : Canvas) (nyquist frequencyPerBin : N)
    (dataArray : list Z) (bufferLength pixelX : Z) :
  length dataArray = Z.to_nat bufferLength ->
  exists ops,
    drawBar canvas nyquist frequencyPerBin dataArray bufferLength pixelX = Ok ops.
Proof.
  intros Hlen. unfold drawBar.
  destruct (xToFrequencyBinIndex nyquist (width canvas) (ofZ pixelX) frequencyPerBin)
    as [binIndex|]; [|now eexists].
  destruct ((binIndex >=? 0) && (binIndex <? bufferLength)) eqn:Hguard; [|now eexists].
  apply andb_prop in Hguard. destruct Hguard as [Hlo Hhi].
  apply Z.geb_le in Hlo. apply Z.ltb_lt in Hhi.
  destruct (nth_error dataArray (Z.to_nat binIndex)) as [amplitude|] eqn:Hread.
  - now eexists.
  - apply nth_error_None in Hread. lia.
Qed.

Lemma forEachColumn_total (body : Z -> Result (list (DrawOp N))) (columns : list Z) :
  (forall pixelX, In pixelX columns -> exists ops, body pixelX = Ok ops) ->
  exists ops, forEachColumn body columns = Ok ops.
Proof.
  induction columns as [|pixelX rest IH]; intros Hbody; simpl.
  - now eexists.
  - destruct (Hbody pixelX) as [ops Hops]; [now left|].
    destruct IH as [more Hmore]; [intros; apply Hbody; now right|].
    rewrite Hops, Hmore. simpl. now eexists.
Qed.

(** What a column draws is part of what the loop draws. *)
Lemma forEachColumn_In (body : Z -> Result (list (DrawOp N))) (columns : list Z)
    (all : list (DrawOp N)) (pixelX : Z) (ops : list (DrawOp N)) (op : DrawOp N) :
  forEachColumn body columns = Ok all ->
  In pixelX columns -> body pixelX = Ok ops -> In op ops -> In op all.
Proof.
  revert all. induction columns as [|p rest IH]; intros all Hall Hin Hbody Hop.
  - destruct Hin.
  - simpl in Hall.
    destruct (body p) as [ops0|] eqn:Hp; [|discriminate].
    destruct (forEachColumn body rest) as [more|] eqn:Hrest; [|discriminate].
    simpl in Hall. injection Hall as <-.
    apply in_or_app. destruct Hin as [->|Hin].
    + left. rewrite Hp in Hbody. now injection Hbody as ->.
    + right. now apply (IH more).
Qed.

Lemma drawLogSpectrum_total (canvas : Canvas) (audioContextRef : option (AudioContext N))
    (dataArray : list Z) (bufferLength : Z) :
  length dataArray = Z.to_nat bufferLength ->
  exists ops, drawLogSpectrum canvas audioContextRef dataArray bufferLength = Ok ops.
Proof.
  intros Hlen. unfold drawLogSpectrum.
  destruct audioContextRef as [audioContext|]; [|now eexists].
  apply forEachColumn_total. intros pixelX _. now apply drawBar_in_bounds.
Qed.

End DrawingFacts.

(** C10. In the loop of [drawLogSpectrum] the array is read only under the
    guard [0 <= binIndex < bufferLength]: whatever the arithmetic, the sample
    rate, the canvas width and the column, with [dataArray] of
    [bufferLength] elements (as [animate] allocates it) no read falls
    outside the array. *)
Theorem drawLogSpectrum_reads_in_bounds
    {N : Type} {arith : Arith N} {libm : Libm N}
    (canvas : Canvas) (audioContextRef : option (AudioContext N))
    (dataArray : list Z) (bufferLength : Z)
    (Hlen : Z.of_nat (length dataArray) = bufferLength) :
  (exists ops, drawLogSpectrum canvas audioContextRef dataArray bufferLength = Ok ops)
  /\ (forall index,
        drawLogSpectrum canvas audioContextRef dataArray bufferLength
        <> OutOfRange index)
  /\ (forall nyquist frequencyPerBin pixelX index,
        drawBar canvas nyquist frequencyPerBin dataArray bufferLength pixelX
        <> OutOfRange index).
Proof.
  assert (Hlen' : length dataArray = Z.to_nat bufferLength) by lia.
  split; [|split].
  - now apply drawLogSpectrum_total.
  - intros index Hbad.
    destruct (drawLogSpectrum_total canvas audioContextRef dataArray bufferLength Hlen')
      as [ops Hops].
    congruence.
  - intros nyquist frequencyPerBin pixelX index Hbad.
    destruct (drawBar_in_bounds canvas nyquist frequencyPerBin dataArray bufferLength
                pixelX Hlen')
      as [ops Hops].
    congruence.
Qed.

Lemma drawLogSpectrum_reads_in_bounds_witness :
  let canvas := {| width := 800; height := 400; has2d := true |} in
  let audioContext := {| contextId := 1; sampleRate := 44100%R |} in
  Z.of_nat (length [0; 128; 255; 7]) = 4
  /\ exists ops, drawLogSpectrum canvas (Some audioContext) [0; 128; 255; 7] 4 = Ok ops.
Proof.
  intros canvas audioContext.
  split; [reflexivity|].
  exact (proj1 (@drawLogSpectrum_reads_in_bounds R _ _ canvas (Some audioContext)
                  [0; 128; 255; 7] 4 eq_refl)).
Defined.

(** C9. With an empty history [drawSpectrogram] issues nothing, and
    [drawSpectrum] succeeds on the array [animate] passes it and issues only
    the clearing fill, the bars of the instantaneous spectrum and the 220 Hz
    line with its label. *)
Theorem empty_history_draws_no_spectrogram
    {N : Type} {arith : Arith N} {libm : Libm N}
    (canvas : Canvas) (audioContextRef : option (AudioContext N))
    (delivered : list Z) (bufferLength now : Z) :
  drawSpectrogram canvas now [] = @nil (DrawOp N)
  /\ exists bars,
       drawLogSpectrum canvas audioContextRef
         (getByteFrequencyData delivered bufferLength) bufferLength = Ok bars
       /\ drawSpectrum canvas audioContextRef
            (getByteFrequencyData delivered bufferLength) bufferLength now []
          = Ok (FillRect (Css "#000") (ofZ 0) (ofZ 0)
                  (ofZ (width canvas)) (ofZ (height canvas))
                :: bars ++ draw220HzLine canvas audioContextRef).
Proof.
  split; [reflexivity|].
  destruct (drawLogSpectrum_total canvas audioContextRef
              (getByteFrequencyData delivered bufferLength) bufferLength
              (getByteFrequencyData_length delivered bufferLength)) as [bars Hbars].
  exists bars. split; [exact Hbars|].
  unfold drawSpectrum. rewrite Hbars. simpl. now rewrite app_nil_r.
Qed.

(* ================================================================== *)
(** ** Properties of the life cycle *)
(* ================================================================== *)

Section LifecycleFacts.

Context {N : Type} {arith : Arith N}.

Ltac open_world w :=
  let c := fresh "c" in
  let h := fresh "h" in
  destruct w as [c h]; destruct c, h; simpl in *.

(** After [stopAudioAnalysis] the three refs are null and the status is
    inactive, whatever the state it ran in. *)
Lemma stopAudioAnalysis_nulls_refs (w : World N) :
  streamRef (component (stopAudioAnalysis w)) = None
  /\ audioContextRef (component (stopAudioAnalysis w)) = None
  /\ analyserRef (component (stopAudioAnalysis w)) = None
  /\ isActive (component (stopAudioAnalysis w)) = false.
Proof.
  unfold stopAudioAnalysis. open_world w.
  destruct streamRef0, audioContextRef0; simpl; auto.
Qed.

Lemma stopAudioAnalysis_liveTracks (w : World N) :
  liveTracks (host (stopAudioAnalysis w))
  = match streamRef (component w) with
    | Some stream => liveTracks (stopTracks stream (host w))
    | None => liveTracks (host w)
    end.
Proof.
  unfold stopAudioAnalysis. open_world w.
  destruct streamRef0, audioContextRef0, (animationRef0 =? 0); reflexivity.
Qed.

Lemma stopAudioAnalysis_openContexts (w : World N) :
  openContexts (host (stopAudioAnalysis w))
  = match audioContextRef (component w) with
    | Some audioContext => openContexts (closeContext audioContext (host w))
    | None => openContexts (host w)
    end.
Proof.
  unfold stopAudioAnalysis. open_world w.
  destruct streamRef0, audioContextRef0, (animationRef0 =? 0); reflexivity.
Qed.

Lemma stopAudioAnalysis_pendingFrames (w : World N) :
  pendingFrames (host (stopAudioAnalysis w))
  = if animationRef (component w) =? 0 then pendingFrames (host w)
    else filter (fun p => negb (fst p =? animationRef (component w)))
           (pendingFrames (host w)).
Proof.
  unfold stopAudioAnalysis. open_world w.
  destruct streamRef0, audioContextRef0, (animationRef0 =? 0); reflexivity.
Qed.

(** Every track of the stream that was held is stopped. *)
Lemma stopAudioAnalysis_stops_tracks (w : World N) (stream : MediaStream) :
  streamRef (component w) = Some stream ->
  streamReleased stream (stopAudioAnalysis w).
Proof.
  intros Hheld t Ht Hlive.
  rewrite stopAudioAnalysis_liveTracks, Hheld in Hlive. simpl in Hlive.
  apply filter_In in Hlive. destruct Hlive as [_ Hkeep].
  apply negb_true_iff in Hkeep.
  assert (Hex : existsb (Z.eqb t) (tracks stream) = true).
  { apply existsb_exists. exists t. split; [exact Ht|apply Z.eqb_refl]. }
  congruence.
Qed.

(** The audio context that was held is closed. *)
Lemma stopAudioAnalysis_closes_context (w : World N) (audioContext : AudioContext N) :
  audioContextRef (component w) = Some audioContext ->
  contextReleased audioContext (stopAudioAnalysis w).
Proof.
  intros Hheld Hopen. unfold contextReleased in *.
  rewrite stopAudioAnalysis_openContexts, Hheld in Hopen. simpl in Hopen.
  apply filter_In in Hopen. destruct Hopen as [_ Hkeep].
  rewrite Z.eqb_refl in Hkeep. discriminate.
Qed.

(** In the active state the one pending request is the one [animationRef]
    names, so cancelling it leaves none. *)
Lemma stopAudioAnalysis_cancels_frame (w : World N) :
  Active w -> pendingFrames (host (stopAudioAnalysis w)) = [].
Proof.
  intros (_ & _ & _ & Hpending & _).
  rewrite stopAudioAnalysis_pendingFrames.
  destruct Hpending as [Hnone|(bound & Hone & Hnz)].
  - rewrite Hnone. now destruct (animationRef (component w) =? 0).
  - rewrite Hone. apply Z.eqb_neq in Hnz. rewrite Hnz. simpl.
    now rewrite Z.eqb_refl.
Qed.

Context {libm : Libm N}.

(** Lines 83 and 87: a frame that finds the analyser, the canvas or its 2D
    context missing returns at once. *)
Lemma animate_returns_when_not_ready (input : FrameInput) (bound : list SpectrumData)
    (w : World N) :
  notReady w -> animate input bound w = Ok w.
Proof.
  unfold notReady, animate.
  intros [Hnone|[Hnone|(canvas & Hcanvas & Hctx)]].
  - now rewrite Hnone.
  - rewrite Hnone. now destruct (analyserRef (component w)).
  - rewrite Hcanvas, Hctx. now destruct (analyserRef (component w)).
Qed.

Lemma runFrames_nothing_pending (inputs : list FrameInput) (w : World N) :
  pendingFrames (host w) = [] -> runFrames inputs w = Ok (w, 0%nat).
Proof.
  intros Hnone. destruct inputs as [|input more]; simpl; [reflexivity|].
  unfold runFrame. now rewrite Hnone.
Qed.

(** What a frame that is not skipped leaves behind. *)
Lemma animate_runs (input : FrameInput) (bound : list SpectrumData) (w w' : World N) :
  animate input bound w = Ok w' ->
  w' = w
  \/ (streamRef (component w') = streamRef (component w)
      /\ audioContextRef (component w') = audioContextRef (component w)
      /\ analyserRef (component w') = analyserRef (component w)
      /\ isActive (component w') = isActive (component w)
      /\ animationRef (component w') = nextHandle (host w)
      /\ pendingFrames (host w') = pendingFrames (host w) ++ [(nextHandle (host w), bound)]
      /\ nextHandle (host w') = nextHandle (host w) + 1
      /\ liveTracks (host w') = liveTracks (host w)
      /\ openContexts (host w') = openContexts (host w)
      /\ consoleErrors (host w') = consoleErrors (host w)).
Proof.
  unfold animate.
  destruct (analyserRef (component w)) as [analyser|] eqn:Ha; [|intros [= <-]; now left].
  destruct (canvasRef (component w)) as [canvas|]; [|intros [= <-]; now left].
  destruct (has2d canvas); [|intros [= <-]; now left].
  match goal with |- context [bind ?r _] => destruct r as [ops|] end; simpl;
    [|discriminate].
  intros [= <-]. right. simpl. rewrite Ha. repeat split; reflexivity.
Qed.

(** The active state is what a start that does not throw reaches from the
    idle state ... *)
Lemma startAudioAnalysis_reaches_Active (stream : MediaStream)
    (audioContext : AudioContext N) (input : FrameInput) (bound : list SpectrumData)
    (w w' : World N) :
  Idle w ->
  startAudioAnalysis (Acquired stream audioContext) input bound w = Ok w' ->
  Active w'.
Proof.
  intros (_ & _ & _ & Hnone & Hpos) Hstart.
  unfold startAudioAnalysis in Hstart.
  apply animate_runs in Hstart. simpl in Hstart.
  destruct Hstart as [->|(Hs & Hc & Ha & _ & Hr & Hp & Hn & _)]; unfold Active; simpl.
  - repeat split; eauto; lia.
  - rewrite Hs, Hc, Ha, Hp, Hn, Hr, Hnone. simpl.
    repeat split; eauto; [|lia].
    right. exists bound. split; [reflexivity|lia].
Qed.

(** ... and every frame keeps. *)
Lemma runFrame_keeps_Active (input : FrameInput) (w w' : World N) :
  Active w -> runFrame input w = Some (Ok w') -> Active w'.
Proof.
  intros (Hs & Hc & Ha & Hpending & Hpos) Hrun.
  unfold runFrame in Hrun.
  destruct Hpending as [Hnone|(bound & Hone & Hnz)].
  - rewrite Hnone in Hrun. discriminate.
  - rewrite Hone in Hrun. injection Hrun as Hrun.
    apply animate_runs in Hrun. simpl in Hrun.
    destruct Hrun as [->|(Hs' & Hc' & Ha' & _ & Hr & Hp & Hn & _)]; unfold Active; simpl.
    + repeat split; auto.
    + rewrite Hs', Hc', Ha', Hp, Hn, Hr. simpl.
      repeat split; auto; [|lia].
      right. exists bound. split; [reflexivity|lia].
Qed.

(** A frame that is not skipped appends to the history by the updater, at
    the time it read: the history it leaves is within the window. *)
Lemma animate_history_within_window (input : FrameInput) (bound : list SpectrumData)
    (w w' : World N) :
  animate input bound w = Ok w' -> ~ notReady w ->
  Forall (fun e => clock input - timestamp e <= HISTORY_DURATION)
    (spectrumHistory (component w')).
Proof.
  unfold animate, notReady. intros Hrun Hready.
  destruct (analyserRef (component w)) as [analyser|]; [|tauto].
  destruct (canvasRef (component w)) as [canvas|]; [|tauto].
  destruct (has2d canvas) eqn:Hctx; [|exfalso; apply Hready; eauto].
  match type of Hrun with context [bind ?r _] => destruct r as [ops|] end;
    simpl in Hrun; [|discriminate].
  injection Hrun as <-. simpl. apply historyUpdater_within.
Qed.

End LifecycleFacts.

(** C2. From the active state, [stopAudioAnalysis] leaves no animation-frame
    request pending, so no frame callback runs afterwards (and a callback
    that did run would return at once); the stream's tracks are stopped and
    its ref is null, the audio context is closed and its ref is null, the
    analyser ref is null, and the status is inactive.  The function is
    straight-line code: it has one exit. *)
Theorem stopAudioAnalysis_ends_loop_and_releases
    {N : Type} {arith : Arith N} {libm : Libm N} (w : World N) (HA : Active w) :
  pendingFrames (host (stopAudioAnalysis w)) = []
  /\ (forall inputs,
        runFrames inputs (stopAudioAnalysis w) = Ok (stopAudioAnalysis w, 0%nat))
  /\ (forall input bound,
        animate input bound (stopAudioAnalysis w) = Ok (stopAudioAnalysis w))
  /\ streamRef (component (stopAudioAnalysis w)) = None
  /\ audioContextRef (component (stopAudioAnalysis w)) = None
  /\ analyserRef (component (stopAudioAnalysis w)) = None
  /\ (forall stream, streamRef (component w) = Some stream ->
        streamReleased stream (stopAudioAnalysis w))
  /\ (forall audioContext, audioContextRef (component w) = Some audioContext ->
        contextReleased audioContext (stopAudioAnalysis w))
  /\ isActive (component (stopAudioAnalysis w)) = false.
Proof.
  pose proof (stopAudioAnalysis_nulls_refs w) as (Hs & Hc & Ha & Hi).
  pose proof (stopAudioAnalysis_cancels_frame w HA) as Hp.
  repeat split; try assumption.
  - intros inputs. now apply runFrames_nothing_pending.
  - intros input bound. apply animate_returns_when_not_ready. now left.
  - intros stream Hheld. now apply stopAudioAnalysis_stops_tracks.
  - intros audioContext Hheld. now apply stopAudioAnalysis_closes_context.
Qed.

Lemma stopAudioAnalysis_ends_loop_and_releases_witness :
  Active activeWorld
  /\ pendingFrames (host (stopAudioAnalysis activeWorld)) = []
  /\ streamReleased oneTrackStream (stopAudioAnalysis activeWorld)
  /\ contextReleased context44100 (stopAudioAnalysis activeWorld).
Proof.
  assert (HA : Active activeWorld).
  { unfold Active, activeWorld; simpl.
    split; [eauto|]. split; [eauto|]. split; [eauto|]. split; [|lia].
    right. exists []. split; [reflexivity|lia]. }
  destruct (stopAudioAnalysis_ends_loop_and_releases activeWorld HA)
    as (Hp & _ & _ & _ & _ & _ & Hs & Hc & _).
  split; [exact HA|]. split; [exact Hp|]. split.
  - now apply Hs.
  - now apply Hc.
Defined.

(** C3. The frame is skipped and schedules nothing: on a world whose
    analyser is missing the claim's "a next frame is still scheduled"
    fails. *)
Lemma skipped_frame_schedules_nothing :
  notReady idleWorld
  /\ ~ (exists w', animate quietFrame [] idleWorld = Ok w'
                   /\ nextFrameScheduled idleWorld w').
Proof.
  split.
  - now left.
  - intros (w' & Hrun & request & Hin & Hnot).
    injection Hrun as <-. contradiction.
Qed.

(** C3, as the code has it. When the analyser, the canvas or its 2D context
    is missing at the start of a frame, [animate] returns without effect: no
    snapshot is appended, nothing is drawn, nothing fails, and no next frame
    is requested, so the frame loop ends there. *)
Theorem not_ready_frame_is_skipped_and_ends_loop
    {N : Type} {arith : Arith N} {libm : Libm N}
    (input : FrameInput) (bound : list SpectrumData) (w : World N)
    (Hnot : notReady w) :
  animate input bound w = Ok w
  /\ forall w', animate input bound w = Ok w' ->
       spectrumHistory (component w') = spectrumHistory (component w)
       /\ surface (host w') = surface (host w)
       /\ pendingFrames (host w') = pendingFrames (host w)
       /\ animationRef (component w') = animationRef (component w)
       /\ ~ nextFrameScheduled w w'
       /\ forall more, runFrames more w' = runFrames more w.
Proof.
  pose proof (animate_returns_when_not_ready input bound w Hnot) as Hskip.
  split; [exact Hskip|].
  intros w' Hrun. rewrite Hskip in Hrun. injection Hrun as <-.
  repeat split.
  intros (request & Hin & Hout). contradiction.
Qed.

(** When the host runs the one pending request on such a world, that
    callback is the last one. *)
Lemma skipped_frame_is_the_last_callback
    {N : Type} {arith : Arith N} {libm : Libm N}
    (input : FrameInput) (more : list FrameInput) (handle : Z)
    (bound : list SpectrumData) (w : World N) :
  notReady w -> pendingFrames (host w) = [(handle, bound)] ->
  runFrames (input :: more) w
  = Ok ({| component := component w; host := set_pendingFrames [] (host w) |}, 1%nat).
Proof.
  intros Hnot Hone. simpl. unfold runFrame. rewrite Hone.
  rewrite animate_returns_when_not_ready by exact Hnot. simpl.
  now rewrite runFrames_nothing_pending.
Qed.

Lemma not_ready_frame_is_skipped_and_ends_loop_witness :
  notReady idleWorld /\ animate quietFrame [] idleWorld = Ok idleWorld.
Proof.
  assert (Hnot : notReady idleWorld) by now left.
  split; [exact Hnot|].
  exact (proj1 (not_ready_frame_is_skipped_and_ends_loop quietFrame [] idleWorld Hnot)).
Defined.

(** C4. A start whose [new AudioContext()] throws after the stream was
    obtained leaves the stream's track capturing: the [catch] block releases
    nothing. *)
Lemma failed_start_leaves_stream_live :
  threw (NewAudioContextThrows (N:=R) oneTrackStream)
  /\ exists w',
       startAudioAnalysis (NewAudioContextThrows oneTrackStream) quietFrame []
         idleWorld = Ok w'
       /\ streamRef (component w') = Some oneTrackStream
       /\ ~ streamReleased oneTrackStream w'.
Proof.
  split; [exact I|].
  eexists. split; [reflexivity|]. split; [reflexivity|].
  intros Hrel. apply (Hrel 10); simpl; now left.
Qed.

(** C4, as the code has it. When the acquisition throws, the status becomes
    inactive, the error is reported on the console and no frame is
    requested; what had been acquired stays in its ref, and the next
    [stopAudioAnalysis] stops the stream's tracks, closes the context and
    nulls the three refs. *)
Theorem failed_start_reports_and_defers_release
    {N : Type} {arith : Arith N} {libm : Libm N}
    (acquisition : Acquisition N) (input : FrameInput) (bound : list SpectrumData)
    (w : World N) (Hthrew : threw acquisition) :
  exists w',
    startAudioAnalysis acquisition input bound w = Ok w'
    /\ isActive (component w') = false
    /\ consoleErrors (host w') = S (consoleErrors (host w))
    /\ pendingFrames (host w') = pendingFrames (host w)
    /\ (forall stream, acquiredStream acquisition = Some stream ->
          streamRef (component w') = Some stream
          /\ streamReleased stream (stopAudioAnalysis w'))
    /\ (forall audioContext, acquiredContext acquisition = Some audioContext ->
          audioContextRef (component w') = Some audioContext
          /\ contextReleased audioContext (stopAudioAnalysis w'))
    /\ streamRef (component (stopAudioAnalysis w')) = None
    /\ audioContextRef (component (stopAudioAnalysis w')) = None
    /\ analyserRef (component (stopAudioAnalysis w')) = None.
Proof.
  destruct acquisition as [|stream|stream audioContext|stream audioContext];
    try contradiction; simpl;
    (eexists; split; [reflexivity|]);
    match goal with
    | |- context [stopAudioAnalysis ?w'] =>
        pose proof (stopAudioAnalysis_nulls_refs w') as (Hs & Hc & Ha & _)
    end;
    repeat split; try assumption; try discriminate;
    try (intros x [= <-]; split; [reflexivity|]);
    try (now apply stopAudioAnalysis_stops_tracks);
    try (now apply stopAudioAnalysis_closes_context).
Qed.

Lemma failed_start_reports_and_defers_release_witness :
  threw (NewAudioContextThrows (N:=R) oneTrackStream)
  /\ exists w',
       startAudioAnalysis (NewAudioContextThrows oneTrackStream) quietFrame []
         idleWorld = Ok w'
       /\ isActive (component w') = false
       /\ streamReleased oneTrackStream (stopAudioAnalysis w').
Proof.
  split; [exact I|].
  destruct (failed_start_reports_and_defers_release
              (NewAudioContextThrows oneTrackStream) quietFrame [] idleWorld I)
    as (w' & Hstart & Hinactive & _ & _ & Hstream & _).
  exists w'. repeat split; [exact Hstart|exact Hinactive|].
  now apply Hstream.
Defined.

(* ================================================================== *)
(** ** The coordinate mappings in real arithmetic *)
(* ================================================================== *)

Section RealFacts.
Local Open Scope R_scope.

Lemma ln10_pos : 0 < ln 10.
Proof. rewrite <- ln_1. apply ln_increasing; lra. Qed.

Lemma pow10_log10 (x : R) : 0 < x -> pow (ofZ 10) (log10 x) = x.
Proof.
  intros Hx. simpl. unfold Rpower.
  replace (ln x / ln 10 * ln 10) with (ln x) by (field; pose proof ln10_pos; lra).
  now apply exp_ln.
Qed.

Lemma log10_pow10 (y : R) : log10 (pow (ofZ 10) y) = y.
Proof.
  simpl. rewrite ln_Rpower. field. pose proof ln10_pos; lra.
Qed.

Lemma logRange_pos (nyquist : R) : 20 < nyquist -> 0 < logRange nyquist.
Proof.
  intros Hny. unfold logRange, logMinFreq. simpl.
  pose proof ln10_pos as H10.
  assert (ln 20 < ln nyquist) by (apply ln_increasing; lra).
  assert (ln 20 / ln 10 < ln nyquist / ln 10).
  { apply Rmult_lt_compat_r; [now apply Rinv_0_lt_compat|assumption]. }
  lra.
Qed.

Lemma xToFrequency_frequencyToX (nyquist : R) (canvasWidth : Z) (freq : R) :
  20 < nyquist -> canvasWidth <> 0%Z -> 0 < freq ->
  xToFrequency nyquist canvasWidth (frequencyToX nyquist canvasWidth freq) = freq.
Proof.
  intros Hny Hw Hf.
  pose proof (logRange_pos nyquist Hny) as Hr.
  assert (Hw' : IZR canvasWidth <> 0) by (now apply not_0_IZR).
  unfold xToFrequency, frequencyToX.
  match goal with |- pow _ ?e = _ => replace e with (log10 freq) end.
  - now apply pow10_log10.
  - cbn [add sub mul div ofZ Arith_R]. field. split; lra.
Qed.

Lemma frequencyToX_xToFrequency (nyquist : R) (canvasWidth : Z) (pixelX : R) :
  20 < nyquist -> canvasWidth <> 0%Z ->
  frequencyToX nyquist canvasWidth (xToFrequency nyquist canvasWidth pixelX) = pixelX.
Proof.
  intros Hny Hw.
  pose proof (logRange_pos nyquist Hny) as Hr.
  assert (Hw' : IZR canvasWidth <> 0) by (now apply not_0_IZR).
  unfold xToFrequency, frequencyToX.
  rewrite log10_pow10.
  cbn [add sub mul div ofZ Arith_R]. field. split; lra.
Qed.

Lemma frequencyToX_range (nyquist : R) (canvasWidth : Z) (freq : R) :
  20 < nyquist -> (0 <= canvasWidth)%Z -> 20 <= freq <= nyquist ->
  0 <= frequencyToX nyquist canvasWidth freq <= IZR canvasWidth.
Proof.
  intros Hny Hw [Hlo Hhi].
  pose proof (logRange_pos nyquist Hny) as Hr.
  pose proof ln10_pos as H10.
  assert (Hw' : 0 <= IZR canvasWidth) by (now apply IZR_le).
  assert (H1 : 0 <= log10 freq - logMinFreq).
  { unfold logMinFreq. simpl.
    assert (ln 20 <= ln freq) by (destruct Hlo as [Hlo| <-]; [left; apply ln_increasing; lra|right; reflexivity]).
    assert (ln 20 / ln 10 <= ln freq / ln 10).
    { apply Rmult_le_compat_r; [left; now apply Rinv_0_lt_compat|assumption]. }
    lra. }
  assert (H2 : log10 freq - logMinFreq <= logRange nyquist).
  { unfold logRange, logMinFreq. simpl.
    assert (ln freq <= ln nyquist) by (destruct Hhi as [Hhi| ->]; [left; apply ln_increasing; lra|right; reflexivity]).
    assert (ln freq / ln 10 <= ln nyquist / ln 10).
    { apply Rmult_le_compat_r; [left; now apply Rinv_0_lt_compat|assumption]. }
    lra. }
  unfold frequencyToX. cbn [add sub mul div ofZ Arith_R] in *.
  set (d := log10 freq - logMinFreq) in *.
  set (r := logRange nyquist) in *.
  assert (H3 : 0 <= d / r <= 1).
  { split.
    - apply Rmult_le_pos; [assumption|left; now apply Rinv_0_lt_compat].
    - apply (Rmult_le_reg_r r); [assumption|].
      unfold Rdiv. rewrite Rmult_assoc, Rinv_l; lra. }
  split.
  - apply Rmult_le_pos; lra.
  - rewrite <- (Rmult_1_l (IZR canvasWidth)) at 2.
    apply Rmult_le_compat_r; lra.
Qed.

Lemma round_R (x : R) (z : Z) :
  IZR z <= x + / 2 < IZR z + 1 -> round x = Some z.
Proof.
  intros [Hlo Hhi]. simpl. f_equal. symmetry.
  apply Int_part_spec. lra.
Qed.

Lemma binIndex_of_frequency (nyquist : R) (canvasWidth : Z) (freq frequencyPerBin : R)
    (z : Z) :
  20 < nyquist -> canvasWidth <> 0%Z -> 0 < freq ->
  IZR z <= freq / frequencyPerBin + / 2 < IZR z + 1 ->
  xToFrequencyBinIndex nyquist canvasWidth (frequencyToX nyquist canvasWidth freq)
    frequencyPerBin = Some z.
Proof.
  intros Hny Hw Hf Hz. unfold xToFrequencyBinIndex.
  rewrite xToFrequency_frequencyToX by assumption.
  now apply round_R.
Qed.

Lemma frequencyToX_20 (nyquist : R) (canvasWidth : Z) :
  frequencyToX nyquist canvasWidth 20 = 0.
Proof.
  unfold frequencyToX, logMinFreq. cbn [add sub mul div ofZ Arith_R].
  unfold Rminus at 1. rewrite Rplus_opp_r. unfold Rdiv. now rewrite !Rmult_0_l.
Qed.

Lemma frequencyToX_30_at_44100 : 2 < frequencyToX (44100 / 2) 800 30.
Proof.
  pose proof ln10_pos as H10.
  assert (Ha : 0 < ln (3 / 2)) by (rewrite <- ln_1; apply ln_increasing; lra).
  assert (Hb : 0 < ln (44100 / 2 / 20)) by (rewrite <- ln_1; apply ln_increasing; lra).
  assert (Hab : ln (44100 / 2 / 20) < 18 * ln (3 / 2)).
  { replace 18 with (INR 18) by (simpl; lra).
    rewrite <- ln_pow by lra.
    apply ln_increasing; [lra|]. simpl. lra. }
  assert (H30 : ln 30 = ln 20 + ln (3 / 2)).
  { rewrite <- ln_mult by lra. f_equal. lra. }
  assert (Hny : ln (44100 / 2) = ln 20 + ln (44100 / 2 / 20)).
  { rewrite <- ln_mult by lra. f_equal. lra. }
  unfold frequencyToX, logRange, logMinFreq.
  cbn [add sub mul div ofZ Arith_R log10 Libm_R].
  rewrite H30, Hny.
  set (a := ln (3 / 2)) in *. set (b := ln (44100 / 2 / 20)) in *.
  set (m := ln 20). set (L := ln 10) in *.
  replace (((m + a) / L - m / L) / ((m + b) / L - m / L) * 800)
    with (a / b * 800) by (field; split; lra).
  assert (/ 18 < a / b).
  { apply (Rmult_lt_reg_r b); [assumption|].
    unfold Rdiv. rewrite Rmult_assoc, Rinv_l; lra. }
  lra.
Qed.
End RealFacts.

(** C7. At 44100 Hz with 1024 bins on the 800-pixel canvas, 20 Hz and 30 Hz
    lie more than two pixels apart and are both sent to bin 1 by the inverse
    the bar renderer uses: whatever pixel a bin is mapped back to, the round
    trip through the nearest bin misses one of them by more than a pixel. *)
Lemma nearest_bin_round_trip_exceeds_one_pixel :
  ~ (exists binToX : Z -> R,
       forall freq : R, (20 <= freq <= 44100 / 2)%R ->
         exists binIndex,
           xToFrequencyBinIndex (44100 / 2)%R 800
             (frequencyToX (44100 / 2)%R 800 freq) (44100 / 2 / 1024)%R
           = Some binIndex
           /\ (Rabs (binToX binIndex - frequencyToX (44100 / 2)%R 800 freq) <= 1)%R).
Proof.
  intros (binToX & Hall).
  destruct (Hall 20%R) as (b20 & Hb20 & Hd20); [lra|].
  destruct (Hall 30%R) as (b30 & Hb30 & Hd30); [lra|].
  rewrite (binIndex_of_frequency (44100 / 2) 800 20 (44100 / 2 / 1024) 1) in Hb20;
    [|lra|lia|lra|simpl; lra].
  rewrite (binIndex_of_frequency (44100 / 2) 800 30 (44100 / 2 / 1024) 1) in Hb30;
    [|lra|lia|lra|simpl; lra].
  injection Hb20 as <-. injection Hb30 as <-.
  rewrite frequencyToX_20 in Hd20.
  pose proof frequencyToX_30_at_44100 as Hfar.
  unfold Rabs in Hd20, Hd30.
  destruct (Rcase_abs _) in Hd20; destruct (Rcase_abs _) in Hd30; lra.
Qed.

(** C7, as the code has it. For a Nyquist frequency above 20 Hz and a canvas
    of positive width, in real arithmetic the forward mapping of
    [draw220HzLine] and the pixel-to-frequency step of [drawLogSpectrum] are
    inverse to each other on every frequency in [20, Nyquist], whose pixel
    lies on the canvas; so they round-trip within one pixel (exactly).  The
    rounding to the nearest bin is not part of the round trip. *)
Theorem frequency_pixel_round_trip (nyquist : R) (canvasWidth : Z) (freq : R)
    (Hny : (20 < nyquist)%R) (Hw : 0 < canvasWidth)
    (Hf : (20 <= freq <= nyquist)%R) :
  xToFrequency nyquist canvasWidth (frequencyToX nyquist canvasWidth freq) = freq
  /\ (0 <= frequencyToX nyquist canvasWidth freq <= IZR canvasWidth)%R
  /\ (Rabs (frequencyToX nyquist canvasWidth
              (xToFrequency nyquist canvasWidth
                 (frequencyToX nyquist canvasWidth freq))
            - frequencyToX nyquist canvasWidth freq) <= 1)%R
  /\ (forall pixelX : R,
        frequencyToX nyquist canvasWidth (xToFrequency nyquist canvasWidth pixelX)
        = pixelX).
Proof.
  assert (Hback : xToFrequency nyquist canvasWidth
                    (frequencyToX nyquist canvasWidth freq) = freq).
  { apply xToFrequency_frequencyToX; [assumption|lia|lra]. }
  split; [exact Hback|]. split; [|split].
  - apply frequencyToX_range; [assumption|lia|assumption].
  - rewrite Hback. unfold Rminus. rewrite Rplus_opp_r, Rabs_R0. lra.
  - intros pixelX. apply frequencyToX_xToFrequency; [assumption|lia].
Qed.

Lemma frequency_pixel_round_trip_witness :
  (20 < 44100 / 2)%R /\ 0 < 800 /\ (20 <= 220 <= 44100 / 2)%R
  /\ xToFrequency (44100 / 2)%R 800 (frequencyToX (44100 / 2)%R 800 220%R) = 220%R.
Proof.
  assert (Hny : (20 < 44100 / 2)%R) by lra.
  assert (Hw : 0 < 800) by lia.
  assert (Hf : (20 <= 220 <= 44100 / 2)%R) by lra.
  split; [exact Hny|]. split; [exact Hw|]. split; [exact Hf|].
  exact (proj1 (frequency_pixel_round_trip (44100 / 2)%R 800 220%R Hny Hw Hf)).
Defined.

(* ================================================================== *)
(** ** The layout of the canvas *)
(* ================================================================== *)

(** The reference line and its label stay in the top two-thirds of the
    800 by 400 canvas, at any sample rate. *)
Lemma draw220HzLine_withinTopTwoThirds (audioContextRef : option (AudioContext R)) :
  Forall (withinTopTwoThirds theCanvas) (draw220HzLine theCanvas audioContextRef).
Proof.
  destruct audioContextRef as [audioContext|]; simpl; [|constructor].
  apply Forall_cons; [simpl; unfold CANVAS_HEIGHT; lra|].
  apply Forall_cons; [simpl; unfold CANVAS_HEIGHT; lra|constructor].
Qed.

Section SpectrogramLayout.
Local Open Scope R_scope.

Variable canvas : Canvas.
Hypothesis Hheight : (0 <= height canvas)%Z.

(** The cells of one history entry stack downwards from [top] in [n] steps. *)
Lemma cells_in_band (x top step : R) (n : nat) (amplitudes : list Z) (index : Z) :
  0 <= step -> (0 <= index)%Z -> (index + Z.of_nat (length amplitudes) <= Z.of_nat n)%Z ->
  Forall (fun op => match op with
                    | FillRect _ _ y _ h => top <= y /\ y + h <= top + INR n * step
                    | _ => True
                    end)
    (forEachIndexed (fun amplitude freqIndex =>
       let y := (top + (ofZ freqIndex * step))%js in
       let intensity := (ofZ amplitude / ofZ 255)%js in
       let hue := (ofZ 240 - (intensity * ofZ 240))%js in
       [FillRect (Hsl hue (ofZ 50 * intensity)%js) x y (ofZ 2) step])
       amplitudes index).
Proof.
  intros Hstep. revert index.
  induction amplitudes as [|a rest IH]; intros index Hlo Hhi; simpl.
  - constructor.
  - constructor.
    + simpl in Hhi.
      assert (H0 : 0 <= IZR index) by (now apply IZR_le).
      assert (H1 : IZR index + 1 <= INR n).
      { rewrite INR_IZR_INZ, <- plus_IZR. apply IZR_le. lia. }
      split; [nra|nra].
    + apply IH; simpl in Hhi; lia.
Qed.

(** The cells of the spectrogram lie in the bottom third of the canvas. *)
Lemma drawSpectrogram_withinBottomThird (now : Z) (spectrumHistory : list SpectrumData) :
  Forall (withinBottomThird canvas) (drawSpectrogram canvas now spectrumHistory).
Proof.
  assert (HH : 0 <= IZR (height canvas)) by (now apply IZR_le).
  unfold drawSpectrogram.
  destruct (Z.of_nat (length spectrumHistory) =? 0)%Z; [constructor|].
  apply Forall_app. split; [|repeat constructor].
  apply Forall_flat_map, Forall_forall. intros data _.
  destruct (now - timestamp data >? HISTORY_DURATION)%Z; [constructor|].
  destruct (frequencies data) as [|a rest] eqn:Hfreq; [constructor|].
  rewrite <- Hfreq.
  set (n := length (frequencies data)).
  assert (Hn : 0 < INR n) by (apply lt_0_INR; unfold n; rewrite Hfreq; simpl; lia).
  set (step := (ofZ (height canvas) / ofZ 3 / ofZ (Z.of_nat n))%js).
  assert (Hstep : 0 <= step /\ INR n * step = IZR (height canvas) / 3).
  { unfold step. cbn [div ofZ Arith_R]. rewrite <- INR_IZR_INZ. split.
    - apply Rmult_le_pos; [lra|]. left. now apply Rinv_0_lt_compat.
    - field. lra. }
  destruct Hstep as [Hstep Htotal].
  eapply Forall_impl;
    [|apply (cells_in_band _ (ofZ (height canvas) - ofZ (height canvas) / ofZ 3)%js
               step n (frequencies data) 0 Hstep); fold n; lia].
  intros [style x y w h| |]; simpl; [|trivial|trivial].
  rewrite Htotal. lra.
Qed.
End SpectrogramLayout.

(** Column 0 of the bar loop at 44100 Hz with 1024 bins shows bin 1. *)
Lemma column_0_reads_bin_1 :
  xToFrequencyBinIndex (44100 / 2)%R 800 0%R (44100 / 2 / 1024)%R = Some 1.
Proof.
  rewrite <- (frequencyToX_20 (44100 / 2)%R 800).
  apply binIndex_of_frequency; [lra|lia|lra|simpl; lra].
Qed.

(** C5. On the 800 by 400 canvas at 44100 Hz, whatever the analyser
    delivers, the bar of column 0 is a rectangle whose lower edge is the
    bottom of the canvas, y + h = 400, below the top two-thirds (266.67):
    [drawLogSpectrum] scales the bars by the full canvas height and anchors
    them at its bottom, over the band of the spectrogram. *)
Theorem bar_reaches_bottom_of_canvas (delivered : list Z) :
  exists ops,
    drawLogSpectrum theCanvas (Some context44100)
      (getByteFrequencyData delivered (frequencyBinCount {| fftSize := FFT_SIZE |}))
      (frequencyBinCount {| fftSize := FFT_SIZE |}) = Ok ops
    /\ exists fillStyle x y w h,
         In (FillRect fillStyle x y w h) ops
         /\ (y + h = IZR (height theCanvas))%R
         /\ ~ withinTopTwoThirds theCanvas (FillRect fillStyle x y w h).
Proof.
  change (frequencyBinCount {| fftSize := FFT_SIZE |}) with 1024.
  pose proof (getByteFrequencyData_length delivered 1024) as Hlen.
  set (dataArray := getByteFrequencyData delivered 1024) in *.
  destruct (drawLogSpectrum_total theCanvas (Some context44100) dataArray 1024 Hlen)
    as [ops Hops].
  exists ops. split; [exact Hops|].
  destruct (nth_error dataArray 1) as [amplitude|] eqn:Hread.
  2:{ apply nth_error_None in Hread. rewrite Hlen in Hread. lia. }
  set (barHeight := (IZR amplitude / 255 * 400)%R).
  exists (Css "#00ff00"), 0%R, (400 - barHeight)%R, 2%R, barHeight.
  split; [|split].
  - unfold drawLogSpectrum in Hops.
    apply (forEachColumn_In _ _ ops 0
             [FillRect (Css "#00ff00") 0%R (400 - barHeight)%R 2%R barHeight]
             _ Hops); [| |now left].
    + unfold pixelColumns. apply in_map_iff. exists 0%nat.
      split; [reflexivity|]. apply in_seq. split; [lia|]. vm_compute. lia.
    + unfold drawBar.
      change (sampleRate context44100 / ofZ 2)%js with (44100 / 2)%R.
      change ((44100 / 2)%R / ofZ 1024)%js with (44100 / 2 / 1024)%R.
      change (ofZ 0) with 0%R. change (width theCanvas) with 800.
      rewrite column_0_reads_bin_1.
      change (Z.to_nat 1) with 1%nat. rewrite Hread. reflexivity.
  - simpl. unfold CANVAS_HEIGHT. lra.
  - simpl. unfold CANVAS_HEIGHT. lra.
Qed.

(* ================================================================== *)
(** ** The age-to-pixel mapping *)
(* ================================================================== *)

(** C8. In binary64, with the canvas width 800 and a retention window of
    21000 ms, the oldest retained age is not mapped to 0:
    [800 - 21000 * (800 / 21000)] is about [-1.1e-13], and [== 0] is false. *)
Lemma ageToX_oldest_is_not_zero_in_binary64 :
  PrimFloat.eqb
    (ageToX (N:=float) (ofZ 21000) (ofZ CANVAS_WIDTH) (ofZ 21000)) (ofZ 0)
  = false.
Proof. vm_compute. reflexivity. Qed.

Lemma SFeqb_finite_refl (s : bool) (m : positive) (e : Z) :
  SFeqb (S754_finite s m e) (S754_finite s m e) = true.
Proof.
  unfold SFeqb, SFcompare.
  destruct s; rewrite Z.compare_refl; rewrite ?Pos.compare_refl; reflexivity.
Qed.

(** In binary64 the newest entry is drawn at the right edge whenever the
    quotient [canvas.width / timeRange] is finite: [0 * q] is a zero and
    subtracting a zero changes nothing that [==] can see. *)
Lemma ageToX_newest_binary64 (canvasWidth retentionMs : float) :
  finiteDouble (canvasWidth / retentionMs)%float ->
  PrimFloat.eqb (ageToX (ofZ 0) canvasWidth retentionMs) canvasWidth = true.
Proof.
  unfold finiteDouble, ageToX. cbn [sub mul div ofZ Arith_float].
  change (float_ofZ 0) with 0%float.
  set (q := (canvasWidth / retentionMs)%float).
  intros Hq.
  assert (Hw : match Prim2SF canvasWidth with
               | S754_nan | S754_infinity _ => False | _ => True end).
  { unfold q in Hq. rewrite div_spec in Hq. unfold SF64div, SFdiv in Hq.
    destruct (Prim2SF canvasWidth); [exact I|..|exact I].
    - destruct (Prim2SF retentionMs); exact Hq.
    - destruct (Prim2SF retentionMs); exact Hq. }
  rewrite FloatAxioms.eqb_spec, sub_spec, mul_spec.
  change (Prim2SF 0) with (S754_zero false).
  destruct (Prim2SF q) as [sq|sq| |sq mq eq]; try contradiction;
    destruct (Prim2SF canvasWidth) as [sw|sw| |sw mw ew]; try contradiction;
    simpl; try (destruct sq, sw; reflexivity);
    apply SFeqb_finite_refl.
Qed.

(** C8, as the code has it. In real arithmetic, for every canvas width and
    every retention window other than 0, age 0 is mapped to the width and
    the age of the window to 0.  In binary64, age 0 is mapped to the width
    whenever [width / W] is finite, and the age of the window is mapped to 0
    for the width and the window of the program, 800 and 300000 ms. *)
Theorem ageToX_maps_edges (canvasWidth retentionMs : R)
    (Hwindow : retentionMs <> 0%R) :
  ageToX 0%R canvasWidth retentionMs = canvasWidth
  /\ ageToX retentionMs canvasWidth retentionMs = 0%R
  /\ (forall width64 window64 : float,
        finiteDouble (width64 / window64)%float ->
        PrimFloat.eqb (ageToX (ofZ 0) width64 window64) width64 = true)
  /\ PrimFloat.eqb
       (ageToX (N:=float) (ofZ 0) (ofZ CANVAS_WIDTH) (ofZ HISTORY_DURATION))
       (ofZ CANVAS_WIDTH) = true
  /\ PrimFloat.eqb
       (ageToX (N:=float) (ofZ HISTORY_DURATION) (ofZ CANVAS_WIDTH)
          (ofZ HISTORY_DURATION))
       (ofZ 0) = true.
Proof.
  split; [|split; [|split; [|split]]].
  - unfold ageToX. cbn [sub mul div Arith_R]. field. exact Hwindow.
  - unfold ageToX. cbn [sub mul div Arith_R]. field. exact Hwindow.
  - exact ageToX_newest_binary64.
  - vm_compute. reflexivity.
  - vm_compute. reflexivity.
Qed.

Lemma ageToX_maps_edges_witness :
  300000%R <> 0%R
  /\ ageToX 0%R 800%R 300000%R = 800%R
  /\ ageToX 300000%R 800%R 300000%R = 0%R.
Proof.
  assert (Hwindow : 300000%R <> 0%R) by lra.
  split; [exact Hwindow|].
  destruct (ageToX_maps_edges 800%R 300000%R Hwindow) as (Hnew & Hold & _).
  split; [exact Hnew|exact Hold].
Defined.

(* ================================================================== *)
(** ** Further properties of the history buffer *)
(* ================================================================== *)

Lemma StronglySorted_app_inv {A} (R : A -> A -> Prop) (l1 l2 : list A) :
  StronglySorted R (l1 ++ l2) ->
  StronglySorted R l1 /\ StronglySorted R l2
  /\ forall x y, In x l1 -> In y l2 -> R x y.
Proof.
  induction l1 as [|a l1 IH]; simpl; intros Hs.
  - split; [constructor|]. split; [exact Hs|]. intros x y [].
  - inversion Hs as [|? ? Hs' Ha]; subst.
    destruct (IH Hs') as (H1 & H2 & H12).
    rewrite Forall_app in Ha. destruct Ha as [Ha1 Ha2].
    split; [now constructor|]. split; [exact H2|].
    intros x y [<-|Hx] Hy.
    + rewrite Forall_forall in Ha2. now apply Ha2.
    + now apply H12.
Qed.

Lemma filter_filter_implied {A} (p q : A -> bool) (l : list A) :
  (forall x, In x l -> p x = true -> q x = true) ->
  filter p (filter q l) = filter p l.
Proof.
  induction l as [|a l IH]; intros Himp; simpl; [reflexivity|].
  destruct (q a) eqn:Hq; simpl.
  - destruct (p a); rewrite IH; auto; intros; apply Himp; auto; now right.
  - destruct (p a) eqn:Hp.
    + rewrite (Himp a) in Hq; [discriminate|now left|exact Hp].
    + apply IH. intros; apply Himp; auto; now right.
Qed.

(** A run of appends at non-decreasing times evicts exactly: what is left is
    the window over everything that was appended. *)
Lemma appendAll_is_window (W : Z) (snaps : list SpectrumData) (newest : SpectrumData) :
  StronglySorted (byTime Z.le) (snaps ++ [newest]) ->
  appendAll W [] (snaps ++ [newest])
  = filter (fun e => timestamp newest - timestamp e <=? W) (snaps ++ [newest]).
Proof.
  revert newest. induction snaps as [|d snaps IH] using rev_ind; intros newest Hs.
  - reflexivity.
  - rewrite appendAll_snoc.
    destruct (StronglySorted_app_inv _ _ _ Hs) as (Hs' & _ & Hle).
    rewrite (IH d Hs'). unfold append, historyUpdater.
    assert (Hd : timestamp d <= timestamp newest).
    { apply (Hle d newest); [apply in_or_app; right|]; now left. }
    rewrite (filter_app _ (filter _ (snaps ++ [d])) [newest]).
    rewrite (filter_app _ (snaps ++ [d]) [newest]). f_equal.
    apply filter_filter_implied.
    intros e _ He. apply Z.leb_le in He. apply Z.leb_le. lia.
Qed.

(** X1. When snapshots are appended at non-decreasing times, eviction on
    every append loses nothing that one eviction at the end would keep: the
    history is the list of all appended snapshots, in order, that are
    within the window of the newest one; the newest itself is there when
    the window is not negative. *)
Theorem history_is_window_over_appended
    (W : Z) (snaps : list SpectrumData) (newest : SpectrumData)
    (Hclock : StronglySorted (byTime Z.le) (snaps ++ [newest])) :
  snapshots (appendAll W [] (snaps ++ [newest]))
  = filter (fun e => timestamp newest - timestamp e <=? W) (snaps ++ [newest])
  /\ (0 <= W -> In newest (snapshots (appendAll W [] (snaps ++ [newest]))))
  /\ (forall e, In e snaps -> timestamp newest - timestamp e <= W ->
        In e (snapshots (appendAll W [] (snaps ++ [newest])))).
Proof.
  unfold snapshots. rewrite (appendAll_is_window W snaps newest Hclock).
  split; [reflexivity|]. split.
  - intros HW. apply filter_In. split; [apply in_or_app; right; now left|].
    apply Z.leb_le. lia.
  - intros e He Hage. apply filter_In. split; [apply in_or_app; now left|].
    now apply Z.leb_le.
Qed.

Lemma history_is_window_over_appended_witness :
  let snaps := [ {| timestamp := 0; frequencies := [1] |};
                 {| timestamp := 200000; frequencies := [2] |} ] in
  let newest := {| timestamp := 400000; frequencies := [3] |} in
  StronglySorted (byTime Z.le) (snaps ++ [newest])
  /\ snapshots (appendAll HISTORY_DURATION [] (snaps ++ [newest]))
     = [ {| timestamp := 200000; frequencies := [2] |}; newest ].
Proof.
  intros snaps newest.
  assert (H : StronglySorted (byTime Z.le) (snaps ++ [newest])).
  { unfold snaps, newest, byTime. repeat constructor; simpl; lia. }
  split; [exact H|].
  rewrite (proj1 (history_is_window_over_appended HISTORY_DURATION snaps newest H)).
  reflexivity.
Defined.

(* ================================================================== *)
(** ** Further properties of the frame loop *)
(* ================================================================== *)

Section FrameFacts.

Context {N : Type} {arith : Arith N} {libm : Libm N}.

(** [drawSpectrum] succeeds on an array of [bufferLength] elements, with
    its four layers in their order. *)
Lemma drawSpectrum_layers (canvas : Canvas) (audioContextRef : option (AudioContext N))
    (dataArray : list Z) (bufferLength now : Z) (history : list SpectrumData) :
  length dataArray = Z.to_nat bufferLength ->
  exists bars,
    drawLogSpectrum canvas audioContextRef dataArray bufferLength = Ok bars
    /\ drawSpectrum canvas audioContextRef dataArray bufferLength now history
       = Ok (FillRect (Css "#000") (ofZ 0) (ofZ 0)
               (ofZ (width canvas)) (ofZ (height canvas))
             :: bars ++ draw220HzLine canvas audioContextRef
                     ++ drawSpectrogram canvas now history).
Proof.
  intros Hlen.
  destruct (drawLogSpectrum_total canvas audioContextRef dataArray bufferLength Hlen)
    as [bars Hbars].
  exists bars. split; [exact Hbars|].
  unfold drawSpectrum. now rewrite Hbars.
Qed.

(** What a frame does when analyser, canvas and 2D context are there. *)
Lemma animate_ready (input : FrameInput) (bound : list SpectrumData) (w : World N)
    (analyser : AnalyserNode) (canvas : Canvas) :
  analyserRef (component w) = Some analyser ->
  canvasRef (component w) = Some canvas ->
  has2d canvas = true ->
  exists ops,
    drawSpectrum canvas (audioContextRef (component w))
      (getByteFrequencyData (sample input) (frequencyBinCount analyser))
      (frequencyBinCount analyser) (drawClock input) bound = Ok ops
    /\ animate input bound w
       = Ok {| component :=
                 set_animationRef (nextHandle (host w))
                   (setSpectrumHistory
                      (historyUpdater HISTORY_DURATION (clock input)
                         {| timestamp := clock input;
                            frequencies :=
                              getByteFrequencyData (sample input)
                                (frequencyBinCount analyser) |})
                      (component w));
               host := snd (requestAnimationFrame bound (paint ops (host w))) |}.
Proof.
  intros Ha Hc Hctx.
  destruct (drawSpectrum_layers canvas (audioContextRef (component w))
              (getByteFrequencyData (sample input) (frequencyBinCount analyser))
              (frequencyBinCount analyser) (drawClock input) bound
              (getByteFrequencyData_length _ _)) as (bars & _ & Hops).
  eexists. split; [exact Hops|].
  unfold animate. rewrite Ha, Hc, Hctx. simpl.
  simpl in Hops. rewrite Hops. reflexivity.
Qed.

(** A frame never fails. *)
Lemma animate_total (input : FrameInput) (bound : list SpectrumData) (w : World N) :
  exists w', animate input bound w = Ok w'.
Proof.
  destruct (analyserRef (component w)) as [analyser|] eqn:Ha.
  2:{ exists w. apply animate_returns_when_not_ready. now left. }
  destruct (canvasRef (component w)) as [canvas|] eqn:Hc.
  2:{ exists w. apply animate_returns_when_not_ready. right. now left. }
  destruct (has2d canvas) eqn:Hctx.
  2:{ exists w. apply animate_returns_when_not_ready. right. right. eauto. }
  destruct (animate_ready input bound w analyser canvas Ha Hc Hctx) as (ops & _ & Hrun).
  eexists. exact Hrun.
Qed.

(** The new snapshot passes the filter of its own append. *)
Lemma historyUpdater_keeps_newest (now : Z) (freqs : list Z) (prev : list SpectrumData) :
  historyUpdater HISTORY_DURATION now {| timestamp := now; frequencies := freqs |} prev
  = filter (fun e => now - timestamp e <=? HISTORY_DURATION) prev
    ++ [{| timestamp := now; frequencies := freqs |}].
Proof.
  unfold historyUpdater. rewrite filter_app. f_equal.
  simpl. rewrite Z.sub_diag. reflexivity.
Qed.

End FrameFacts.

(** X2. A frame that finds the analyser, the canvas and its 2D context never
    fails and does exactly this: the snapshot it took (stamped with the
    clock it read, one byte per frequency bin) becomes the last entry of the
    history, behind the older entries that are still within five minutes;
    the layers are painted in the order clear, bars, 220 Hz line,
    spectrogram of the closure's history; and one animation frame is
    requested, whose handle is stored in [animationRef]. *)
Theorem ready_frame_appends_paints_and_reschedules
    {N : Type} {arith : Arith N} {libm : Libm N}
    (input : FrameInput) (bound : list SpectrumData) (w : World N)
    (analyser : AnalyserNode) (canvas : Canvas)
    (Hanalyser : analyserRef (component w) = Some analyser)
    (Hcanvas : canvasRef (component w) = Some canvas)
    (Hcontext : has2d canvas = true) :
  exists w',
    animate input bound w = Ok w'
    /\ spectrumHistory (component w')
       = filter (fun e => clock input - timestamp e <=? HISTORY_DURATION)
           (spectrumHistory (component w))
         ++ [{| timestamp := clock input;
                frequencies :=
                  getByteFrequencyData (sample input) (frequencyBinCount analyser) |}]
    /\ length (getByteFrequencyData (sample input) (frequencyBinCount analyser))
       = Z.to_nat (frequencyBinCount analyser)
    /\ (exists bars,
          drawLogSpectrum canvas (audioContextRef (component w))
            (getByteFrequencyData (sample input) (frequencyBinCount analyser))
            (frequencyBinCount analyser) = Ok bars
          /\ surface (host w')
             = surface (host w)
               ++ FillRect (Css "#000") (ofZ 0) (ofZ 0)
                    (ofZ (width canvas)) (ofZ (height canvas))
                  :: bars ++ draw220HzLine canvas (audioContextRef (component w))
                          ++ drawSpectrogram canvas (drawClock input) bound)
    /\ pendingFrames (host w')
       = pendingFrames (host w) ++ [(nextHandle (host w), bound)]
    /\ animationRef (component w') = nextHandle (host w)
    /\ nextHandle (host w') = nextHandle (host w) + 1
    /\ streamRef (component w') = streamRef (component w)
    /\ audioContextRef (component w') = audioContextRef (component w)
    /\ analyserRef (component w') = analyserRef (component w)
    /\ liveTracks (host w') = liveTracks (host w)
    /\ openContexts (host w') = openContexts (host w).
Proof.
  destruct (animate_ready input bound w analyser canvas Hanalyser Hcanvas Hcontext)
    as (ops & Hops & Hrun).
  destruct (drawSpectrum_layers canvas (audioContextRef (component w))
              (getByteFrequencyData (sample input) (frequencyBinCount analyser))
              (frequencyBinCount analyser) (drawClock input) bound
              (getByteFrequencyData_length _ _)) as (bars & Hbars & Hlayers).
  rewrite Hlayers in Hops. injection Hops as <-.
  eexists. split; [exact Hrun|]. simpl.
  split; [apply historyUpdater_keeps_newest|].
  split; [apply getByteFrequencyData_length|].
  split; [exists bars; split; [exact Hbars|reflexivity]|].
  repeat split.
Qed.

Lemma ready_frame_appends_paints_and_reschedules_witness :
  analyserRef (component activeWorld) = Some {| fftSize := FFT_SIZE |}
  /\ canvasRef (component activeWorld) = Some theCanvas
  /\ has2d theCanvas = true
  /\ exists w',
       animate quietFrame [] activeWorld = Ok w'
       /\ animationRef (component w') = 8
       /\ pendingFrames (host w') = [(7, []); (8, [])].
Proof.
  split; [reflexivity|]. split; [reflexivity|]. split; [reflexivity|].
  destruct (ready_frame_appends_paints_and_reschedules quietFrame [] activeWorld
              {| fftSize := FFT_SIZE |} theCanvas eq_refl eq_refl eq_refl)
    as (w' & Hrun & _ & _ & _ & Hp & Hr & _).
  exists w'. split; [exact Hrun|]. split; [exact Hr|exact Hp].
Defined.

Section LoopFacts.

Context {N : Type} {arith : Arith N} {libm : Libm N}.

(** While analyser, canvas and 2D context are there, every callback the
    host runs requests the next one. *)
Lemma runFrames_keep_running (analyser : AnalyserNode) (canvas : Canvas)
    (bound : list SpectrumData) (inputs : list FrameInput) :
  has2d canvas = true ->
  forall (w : World N) (handle : Z),
    analyserRef (component w) = Some analyser ->
    canvasRef (component w) = Some canvas ->
    pendingFrames (host w) = [(handle, bound)] ->
    exists w' handle',
      runFrames inputs w = Ok (w', length inputs)
      /\ analyserRef (component w') = Some analyser
      /\ canvasRef (component w') = Some canvas
      /\ pendingFrames (host w') = [(handle', bound)]
      /\ nextHandle (host w') = nextHandle (host w) + Z.of_nat (length inputs).
Proof.
  intros Hctx. induction inputs as [|input more IH]; intros w handle Ha Hc Hp.
  - exists w, handle. simpl. repeat split; auto. lia.
  - set (w0 := {| component := component w; host := set_pendingFrames [] (host w) |}).
    destruct (animate_ready input bound w0 analyser canvas Ha Hc Hctx)
      as (ops & _ & Hrun).
    match type of Hrun with _ = Ok ?x => set (w1 := x) in * end.
    destruct (IH w1 (nextHandle (host w)) Ha Hc eq_refl)
      as (w' & handle' & Hmore & Ha' & Hc' & Hp' & Hn').
    exists w', handle'.
    split.
    + simpl. unfold runFrame. rewrite Hp. fold w0. rewrite Hrun. simpl.
      rewrite Hmore. reflexivity.
    + split; [exact Ha'|]. split; [exact Hc'|]. split; [exact Hp'|].
      rewrite Hn'. unfold w1. simpl. lia.
Qed.

(** The bars are the only thing [drawLogSpectrum] issues. *)
Lemma forEachColumn_Forall (P : DrawOp N -> Prop)
    (body : Z -> Result (list (DrawOp N))) (columns : list Z) (all : list (DrawOp N)) :
  (forall pixelX ops, In pixelX columns -> body pixelX = Ok ops -> Forall P ops) ->
  forEachColumn body columns = Ok all -> Forall P all.
Proof.
  revert all. induction columns as [|p rest IH]; intros all Hbody Hall; simpl in Hall.
  - injection Hall as <-. constructor.
  - destruct (body p) as [ops|] eqn:Hp; [|discriminate].
    destruct (forEachColumn body rest) as [more|] eqn:Hrest; [|discriminate].
    simpl in Hall. injection Hall as <-.
    apply Forall_app. split.
    + apply (Hbody p); [now left|exact Hp].
    + apply IH; [|reflexivity]. intros q ops' Hq. apply Hbody. now right.
Qed.

Lemma drawBar_shape (canvas : Canvas) (nyquist frequencyPerBin : N)
    (dataArray : list Z) (bufferLength pixelX : Z) (ops : list (DrawOp N)) :
  drawBar canvas nyquist frequencyPerBin dataArray bufferLength pixelX = Ok ops ->
  Forall (fun op =>
            exists amplitude,
              In amplitude dataArray
              /\ op = FillRect (Css "#00ff00") (ofZ pixelX)
                        (ofZ (height canvas)
                         - ofZ amplitude / ofZ 255 * ofZ (height canvas))%js
                        (ofZ 2)
                        (ofZ amplitude / ofZ 255 * ofZ (height canvas))%js) ops.
Proof.
  unfold drawBar.
  destruct (xToFrequencyBinIndex _ _ _ _) as [binIndex|]; [|intros [= <-]; constructor].
  destruct ((binIndex >=? 0) && (binIndex <? bufferLength));
    [|intros [= <-]; constructor].
  destruct (nth_error dataArray (Z.to_nat binIndex)) as [amplitude|] eqn:Hread;
    [|discriminate].
  intros [= <-]. constructor; [|constructor].
  exists amplitude. split; [|reflexivity]. eapply nth_error_In. exact Hread.
Qed.

Lemma drawLogSpectrum_no_spectrogram (canvas : Canvas)
    (audioContextRef : option (AudioContext N)) (dataArray : list Z)
    (bufferLength : Z) (bars : list (DrawOp N)) :
  drawLogSpectrum canvas audioContextRef dataArray bufferLength = Ok bars ->
  Forall (fun op => ~ spectrogramOp op) bars.
Proof.
  unfold drawLogSpectrum. destruct audioContextRef as [audioContext|].
  - apply forEachColumn_Forall. intros pixelX ops _ Hops.
    apply drawBar_shape in Hops.
    eapply Forall_impl; [|exact Hops]. intros op (amplitude & _ & ->). simpl. tauto.
  - intros [= <-]. constructor.
Qed.

Lemma draw220HzLine_no_spectrogram (canvas : Canvas)
    (audioContextRef : option (AudioContext N)) :
  Forall (fun op => ~ spectrogramOp op) (draw220HzLine canvas audioContextRef).
Proof.
  destruct audioContextRef as [audioContext|]; simpl; [|constructor].
  constructor; [simpl; tauto|]. constructor; [|constructor].
  simpl. intros [H|H]; discriminate.
Qed.

(** A frame whose closure holds the empty history paints no cell and no
    label of the spectrogram, and hands the same closure to the next frame. *)
Lemma animate_unbound (input : FrameInput) (w w' : World N) :
  animate input [] w = Ok w' ->
  (exists added, surface (host w') = surface (host w) ++ added
                 /\ Forall (fun op => ~ spectrogramOp op) added)
  /\ (pendingFrames (host w') = pendingFrames (host w)
      \/ exists handle, pendingFrames (host w') = pendingFrames (host w) ++ [(handle, [])]).
Proof.
  intros Hrun.
  destruct (analyserRef (component w)) as [analyser|] eqn:Ha.
  2:{ rewrite animate_returns_when_not_ready in Hrun by now left.
      injection Hrun as <-. split; [exists []; split; [now rewrite app_nil_r|constructor]|now left]. }
  destruct (canvasRef (component w)) as [canvas|] eqn:Hc.
  2:{ rewrite animate_returns_when_not_ready in Hrun by (right; now left).
      injection Hrun as <-. split; [exists []; split; [now rewrite app_nil_r|constructor]|now left]. }
  destruct (has2d canvas) eqn:Hctx.
  2:{ rewrite animate_returns_when_not_ready in Hrun by (right; right; eauto).
      injection Hrun as <-. split; [exists []; split; [now rewrite app_nil_r|constructor]|now left]. }
  destruct (animate_ready input [] w analyser canvas Ha Hc Hctx) as (ops & Hops & Hrun').
  rewrite Hrun' in Hrun. injection Hrun as <-.
  destruct (drawSpectrum_layers canvas (audioContextRef (component w))
              (getByteFrequencyData (sample input) (frequencyBinCount analyser))
              (frequencyBinCount analyser) (drawClock input) []
              (getByteFrequencyData_length _ _)) as (bars & Hbars & Hlayers).
  rewrite Hlayers in Hops. injection Hops as <-.
  split.
  - eexists. split; [reflexivity|].
    constructor; [simpl; tauto|].
    apply Forall_app. split; [now apply drawLogSpectrum_no_spectrogram in Hbars|].
    apply Forall_app. split; [apply draw220HzLine_no_spectrogram|constructor].
  - right. eexists. reflexivity.
Qed.

Lemma runFrames_unbound (inputs : list FrameInput) :
  forall (w : World N),
    Forall (fun p => snd p = []) (pendingFrames (host w)) ->
    exists w' n added,
      runFrames inputs w = Ok (w', n)
      /\ surface (host w') = surface (host w) ++ added
      /\ Forall (fun op => ~ spectrogramOp op) added.
Proof.
  induction inputs as [|input more IH]; intros w Hinv.
  - exists w, 0%nat, []. simpl. rewrite app_nil_r. repeat split; constructor.
  - simpl. unfold runFrame.
    destruct (pendingFrames (host w)) as [|[handle bound] rest] eqn:Hp.
    + exists w, 0%nat, []. rewrite app_nil_r. repeat split; constructor.
    + inversion Hinv as [|? ? Hb Hrest]; subst. simpl in Hb. subst bound.
      set (w0 := {| component := component w; host := set_pendingFrames rest (host w) |}).
      destruct (animate_total input [] w0) as [w1 Hrun].
      destruct (animate_unbound input w0 w1 Hrun) as ((added1 & Hs1 & Hok1) & Hp1).
      destruct (IH w1) as (w' & n & added & Hmore & Hs & Hok).
      { destruct Hp1 as [->|[h ->]]; simpl; [exact Hrest|].
        apply Forall_app. split; [exact Hrest|]. now repeat constructor. }
      exists w', (S n), (added1 ++ added).
      rewrite Hrun. simpl. rewrite Hmore. simpl.
      split; [reflexivity|]. split.
      * rewrite Hs, Hs1. simpl. now rewrite app_assoc.
      * apply Forall_app. now split.
Qed.

End LoopFacts.

(** X3. While the analyser, the canvas and its 2D context are in place and
    one request is pending, the loop never stops by itself: the host runs
    one callback per frame, each callback requests the next with the same
    closure, and each request takes the next handle. *)
Theorem frame_loop_keeps_running
    {N : Type} {arith : Arith N} {libm : Libm N}
    (analyser : AnalyserNode) (canvas : Canvas) (bound : list SpectrumData)
    (inputs : list FrameInput) (w : World N) (handle : Z)
    (Hcontext : has2d canvas = true)
    (Hanalyser : analyserRef (component w) = Some analyser)
    (Hcanvas : canvasRef (component w) = Some canvas)
    (Hpending : pendingFrames (host w) = [(handle, bound)]) :
  exists w' handle',
    runFrames inputs w = Ok (w', length inputs)
    /\ pendingFrames (host w') = [(handle', bound)]
    /\ nextHandle (host w') = nextHandle (host w) + Z.of_nat (length inputs).
Proof.
  destruct (runFrames_keep_running analyser canvas bound inputs Hcontext w handle
              Hanalyser Hcanvas Hpending) as (w' & handle' & Hrun & _ & _ & Hp & Hn).
  exists w', handle'. auto.
Qed.

Lemma frame_loop_keeps_running_witness :
  has2d theCanvas = true
  /\ analyserRef (component activeWorld) = Some {| fftSize := FFT_SIZE |}
  /\ canvasRef (component activeWorld) = Some theCanvas
  /\ pendingFrames (host activeWorld) = [(7, [])]
  /\ exists w' handle',
       runFrames [quietFrame; quietFrame; quietFrame] activeWorld = Ok (w', 3%nat)
       /\ pendingFrames (host w') = [(handle', [])]
       /\ nextHandle (host w') = 8 + 3.
Proof.
  split; [reflexivity|]. split; [reflexivity|]. split; [reflexivity|].
  split; [reflexivity|].
  exact (frame_loop_keeps_running {| fftSize := FFT_SIZE |} theCanvas []
           [quietFrame; quietFrame; quietFrame] activeWorld 7
           eq_refl eq_refl eq_refl eq_refl).
Defined.

(** X4. A session started by a closure whose [spectrumHistory] is empty (the
    closure of the first selection) never draws the spectrogram: however
    many frames run and whatever the history has grown to, nothing painted
    is a spectrogram cell or one of its labels, because every frame reads
    the history bound in the closure and passes that closure on. *)
Theorem session_bound_to_empty_history_never_draws_spectrogram
    {N : Type} {arith : Arith N} {libm : Libm N}
    (acquisition : Acquisition N) (input : FrameInput) (inputs : list FrameInput)
    (w : World N) (Hnone : pendingFrames (host w) = []) :
  exists w1 w2 n added,
    startAudioAnalysis acquisition input [] w = Ok w1
    /\ runFrames inputs w1 = Ok (w2, n)
    /\ surface (host w2) = surface (host w) ++ added
    /\ Forall (fun op => ~ spectrogramOp op) added.
Proof.
  assert (Hstart : exists w1 added1,
             startAudioAnalysis acquisition input [] w = Ok w1
             /\ surface (host w1) = surface (host w) ++ added1
             /\ Forall (fun op => ~ spectrogramOp op) added1
             /\ Forall (fun p => snd p = []) (pendingFrames (host w1))).
  { destruct acquisition as [|stream|stream audioContext|stream audioContext]; simpl.
    1-3: eexists; exists []; split; [reflexivity|]; simpl; rewrite app_nil_r, Hnone;
      repeat split; constructor.
    match goal with |- context [animate input [] ?x] => set (w0 := x) end.
    destruct (animate_total input [] w0) as [w1 Hrun].
    destruct (animate_unbound input w0 w1 Hrun) as ((added1 & Hs1 & Hok1) & Hp1).
    exists w1, added1. split; [exact Hrun|]. split; [exact Hs1|]. split; [exact Hok1|].
    unfold w0 in Hp1. simpl in Hp1. rewrite Hnone in Hp1.
    destruct Hp1 as [->|[h ->]]; repeat constructor. }
  destruct Hstart as (w1 & added1 & Hrun1 & Hs1 & Hok1 & Hinv).
  destruct (runFrames_unbound inputs w1 Hinv) as (w2 & n & added & Hrun & Hs & Hok).
  exists w1, w2, n, (added1 ++ added).
  split; [exact Hrun1|]. split; [exact Hrun|]. split.
  - rewrite Hs, Hs1. now rewrite app_assoc.
  - apply Forall_app. now split.
Qed.

Lemma session_bound_to_empty_history_never_draws_spectrogram_witness :
  pendingFrames (host idleWorld) = []
  /\ exists w1 w2 n added,
       startAudioAnalysis (Acquired oneTrackStream context44100) quietFrame []
         idleWorld = Ok w1
       /\ runFrames [quietFrame; quietFrame] w1 = Ok (w2, n)
       /\ surface (host w2) = surface (host idleWorld) ++ added
       /\ Forall (fun op => ~ spectrogramOp op) added.
Proof.
  split; [reflexivity|].
  exact (session_bound_to_empty_history_never_draws_spectrogram
           (Acquired oneTrackStream context44100) quietFrame
           [quietFrame; quietFrame] idleWorld eq_refl).
Defined.

(* ================================================================== *)
(** ** Further properties of the life cycle *)
(* ================================================================== *)

Section SessionFacts.

Context {N : Type} {arith : Arith N}.

Lemma filter_idempotent {A} (p : A -> bool) (l : list A) :
  filter p (filter p l) = filter p l.
Proof. apply filter_filter_implied. auto. Qed.

(** Stopping twice is stopping once. *)
Lemma stopAudioAnalysis_idempotent (w : World N) :
  stopAudioAnalysis (stopAudioAnalysis w) = stopAudioAnalysis w.
Proof.
  unfold stopAudioAnalysis. destruct w as [c h]. destruct c, h. simpl.
  destruct streamRef0, audioContextRef0, (animationRef0 =? 0) eqn:Hz; simpl;
    rewrite ?Hz; simpl; unfold cancelAnimationFrame, set_pendingFrames; simpl;
    rewrite ?filter_idempotent; reflexivity.
Qed.

Lemma stopAudioAnalysis_nextHandle (w : World N) :
  nextHandle (host (stopAudioAnalysis w)) = nextHandle (host w).
Proof.
  unfold stopAudioAnalysis. destruct w as [c h]. destruct c, h. simpl.
  destruct streamRef0, audioContextRef0, (animationRef0 =? 0); reflexivity.
Qed.

(** Stopping an active session leads to the idle state. *)
Lemma stopAudioAnalysis_reaches_Idle (w : World N) :
  Active w -> Idle (stopAudioAnalysis w).
Proof.
  intros HA.
  pose proof (stopAudioAnalysis_nulls_refs w) as (Hs & Hc & Ha & _).
  pose proof (stopAudioAnalysis_cancels_frame w HA) as Hp.
  destruct HA as (_ & _ & _ & _ & Hpos).
  unfold Idle. rewrite stopAudioAnalysis_nextHandle. auto.
Qed.

(** Tracks that are capturing and are not the held stream's stay so. *)
Lemma stopAudioAnalysis_keeps_other_tracks (w : World N) (t : Z) :
  In t (liveTracks (host w)) ->
  (forall stream, streamRef (component w) = Some stream -> ~ In t (tracks stream)) ->
  In t (liveTracks (host (stopAudioAnalysis w))).
Proof.
  intros Hlive Hother. rewrite stopAudioAnalysis_liveTracks.
  destruct (streamRef (component w)) as [stream|]; [|exact Hlive].
  simpl. apply filter_In. split; [exact Hlive|].
  apply negb_true_iff. apply not_true_is_false. intros Hex.
  apply existsb_exists in Hex. destruct Hex as (u & Hu & Heq).
  apply Z.eqb_eq in Heq. subst u. now apply (Hother stream).
Qed.

Lemma stopAudioAnalysis_keeps_other_contexts (w : World N) (c : Z) :
  In c (openContexts (host w)) ->
  (forall audioContext, audioContextRef (component w) = Some audioContext ->
     contextId audioContext <> c) ->
  In c (openContexts (host (stopAudioAnalysis w))).
Proof.
  intros Hopen Hother. rewrite stopAudioAnalysis_openContexts.
  destruct (audioContextRef (component w)) as [audioContext|]; [|exact Hopen].
  simpl. apply filter_In. split; [exact Hopen|].
  apply negb_true_iff, Z.eqb_neq. intros ->. now apply (Hother audioContext).
Qed.

End SessionFacts.

(** X5. Selecting no microphone only stops: whatever was selected before,
    the change to the empty selection leaves the state one
    [stopAudioAnalysis] leaves (the cleanup and the effect body both call
    it, and stopping twice is stopping once).  Selecting a microphone asks
    the media layer for exactly that device: the answer for the default
    device ([{ audio: true }]) is never used. *)
Theorem deselecting_stops_once_and_selecting_asks_exact_device
    {N : Type} {arith : Arith N} {libm : Libm N}
    (previous selected : String.string) (media : Constraints -> Acquisition N)
    (other : Acquisition N) (input : FrameInput) (bound : list SpectrumData)
    (w : World N) :
  selectionChanged previous "" media input bound w = Ok (stopAudioAnalysis w)
  /\ stopAudioAnalysis (stopAudioAnalysis w) = stopAudioAnalysis w
  /\ effect selected media input bound w
     = effect selected
         (fun constraints =>
            match constraints with
            | AnyAudioInput => other
            | ExactDevice _ => media constraints
            end) input bound w.
Proof.
  split; [|split].
  - unfold selectionChanged, effect, cleanup. simpl.
    destruct (String.eqb previous ""); [reflexivity|].
    now rewrite stopAudioAnalysis_idempotent.
  - apply stopAudioAnalysis_idempotent.
  - unfold effect, startAudioAnalysisFor, constraintsFor.
    destruct (String.eqb selected ""); reflexivity.
Qed.

(** X6. Changing from one microphone to another while a session is active
    (and with the new acquisition succeeding) ends in an active session on
    the new stream: the old frame request is cancelled, the old stream's
    tracks are stopped before the new ones start capturing, and the refs
    hold the new stream and context. *)
Theorem switching_device_restarts_session
    {N : Type} {arith : Arith N} {libm : Libm N}
    (previous next : String.string) (media : Constraints -> Acquisition N)
    (stream : MediaStream) (audioContext : AudioContext N)
    (input : FrameInput) (bound : list SpectrumData) (w : World N)
    (Hprevious : String.eqb previous "" = false)
    (Hnext : String.eqb next "" = false)
    (Hactive : Active w)
    (Hmedia : media (ExactDevice next) = Acquired stream audioContext) :
  exists w',
    selectionChanged previous next media input bound w = Ok w'
    /\ Active w'
    /\ streamRef (component w') = Some stream
    /\ audioContextRef (component w') = Some audioContext
    /\ isActive (component w') = true
    /\ (forall t, In t (tracks stream) -> In t (liveTracks (host w')))
    /\ (forall old t, streamRef (component w) = Some old -> In t (tracks old) ->
          ~ In t (tracks stream) -> ~ In t (liveTracks (host w'))).
Proof.
  unfold selectionChanged, effect, cleanup, startAudioAnalysisFor, constraintsFor.
  rewrite Hprevious, Hnext, Hmedia.
  pose proof (stopAudioAnalysis_reaches_Idle w Hactive) as Hidle.
  set (w0 := stopAudioAnalysis w) in *.
  assert (Hrun : exists w', startAudioAnalysis (Acquired stream audioContext)
                              input bound w0 = Ok w').
  { unfold startAudioAnalysis. apply animate_total. }
  destruct Hrun as [w' Hrun]. exists w'.
  split; [exact Hrun|].
  split; [exact (startAudioAnalysis_reaches_Active stream audioContext input bound
                   w0 w' Hidle Hrun)|].
  unfold startAudioAnalysis in Hrun. apply animate_runs in Hrun. simpl in Hrun.
  assert (Hfields : streamRef (component w') = Some stream
                    /\ audioContextRef (component w') = Some audioContext
                    /\ isActive (component w') = true
                    /\ liveTracks (host w') = tracks stream ++ liveTracks (host w0)).
  { destruct Hrun as [->|(Hs & Hc & _ & Hi & _ & _ & _ & Hl & _)]; simpl; auto. }
  destruct Hfields as (Hs & Hc & Hi & Hl).
  split; [exact Hs|]. split; [exact Hc|]. split; [exact Hi|]. split.
  - intros t Ht. rewrite Hl. apply in_or_app. now left.
  - intros old t Hold Ht Hnew Hlive. rewrite Hl in Hlive.
    apply in_app_or in Hlive. destruct Hlive as [Hlive|Hlive]; [contradiction|].
    exact (stopAudioAnalysis_stops_tracks w old Hold t Ht Hlive).
Qed.

Lemma switching_device_restarts_session_witness :
  let newStream := {| streamId := 2; tracks := [20] |} in
  let media := fun _ : Constraints => Acquired newStream context44100 in
  String.eqb "mic-a" "" = false
  /\ String.eqb "mic-b" "" = false
  /\ media (ExactDevice "mic-b") = Acquired newStream context44100
  /\ exists w',
       selectionChanged "mic-a" "mic-b" media quietFrame [] activeWorld = Ok w'
       /\ Active w'
       /\ In 20 (liveTracks (host w'))
       /\ ~ In 10 (liveTracks (host w')).
Proof.
  intros newStream media.
  assert (HA : Active activeWorld).
  { unfold Active, activeWorld; simpl.
    split; [eauto|]. split; [eauto|]. split; [eauto|]. split; [|lia].
    right. exists []. split; [reflexivity|lia]. }
  split; [reflexivity|]. split; [reflexivity|]. split; [reflexivity|].
  destruct (switching_device_restarts_session "mic-a" "mic-b" media newStream
              context44100 quietFrame [] activeWorld eq_refl eq_refl HA eq_refl)
    as (w' & Hrun & HA' & _ & _ & _ & Hnew & Hold).
  exists w'. split; [exact Hrun|]. split; [exact HA'|]. split.
  - apply Hnew. now left.
  - apply (Hold oneTrackStream 10 eq_refl); simpl; [now left|].
    intros [H|[]]. discriminate.
Defined.

(** X7. When a second acquisition settles while the first was never stopped
    (the selection changed while [getUserMedia] was pending, so the cleanup
    ran before either stream existed), the refs hold only the second
    stream: a later [stopAudioAnalysis] leaves the tracks of the first
    stream capturing and its context open, and cancels only the latest
    frame request, so one more callback of the first loop still runs. *)
Theorem overlapping_acquisitions_leak_the_first
    {N : Type} {arith : Arith N} {libm : Libm N}
    (first second : MediaStream) (firstContext secondContext : AudioContext N)
    (input1 input2 : FrameInput) (bound1 bound2 : list SpectrumData)
    (canvas : Canvas) (w : World N)
    (Hcanvas : canvasRef (component w) = Some canvas)
    (Hcontext : has2d canvas = true)
    (Hnone : pendingFrames (host w) = [])
    (Hpos : 0 < nextHandle (host w))
    (Htracks : forall t, In t (tracks first) -> ~ In t (tracks second))
    (Hids : contextId firstContext <> contextId secondContext) :
  exists w1 w2,
    startAudioAnalysis (Acquired first firstContext) input1 bound1 w = Ok w1
    /\ startAudioAnalysis (Acquired second secondContext) input2 bound2 w1 = Ok w2
    /\ (forall t, In t (tracks first) ->
          In t (liveTracks (host (stopAudioAnalysis w2))))
    /\ In (contextId firstContext) (openContexts (host (stopAudioAnalysis w2)))
    /\ pendingFrames (host (stopAudioAnalysis w2)) = [(nextHandle (host w), bound1)]
    /\ forall input,
         runFrames [input] (stopAudioAnalysis w2)
         = Ok ({| component := component (stopAudioAnalysis w2);
                  host := set_pendingFrames [] (host (stopAudioAnalysis w2)) |},
               1%nat).
Proof.
  set (held1 := holdAnalyser (holdContext firstContext (holdStream first w))).
  set (w0 := {| component := setIsActive true (component held1); host := host held1 |}).
  destruct (animate_ready input1 bound1 w0 {| fftSize := FFT_SIZE |} canvas
              eq_refl Hcanvas Hcontext) as (ops1 & _ & Hrun1).
  match type of Hrun1 with _ = Ok ?x => set (w1 := x) in * end.
  set (held2 := holdAnalyser (holdContext secondContext (holdStream second w1))).
  set (w1' := {| component := setIsActive true (component held2); host := host held2 |}).
  destruct (animate_ready input2 bound2 w1' {| fftSize := FFT_SIZE |} canvas
              eq_refl Hcanvas Hcontext) as (ops2 & _ & Hrun2).
  match type of Hrun2 with _ = Ok ?x => set (w2 := x) in * end.
  exists w1, w2.
  split; [exact Hrun1|]. split; [exact Hrun2|].
  assert (Hp : pendingFrames (host (stopAudioAnalysis w2))
               = [(nextHandle (host w), bound1)]).
  { rewrite stopAudioAnalysis_pendingFrames. unfold w2. simpl. rewrite Hnone. simpl.
    replace (nextHandle (host w) + 1 =? 0) with false by (symmetry; apply Z.eqb_neq; lia).
    simpl.
    replace (nextHandle (host w) =? nextHandle (host w) + 1) with false
      by (symmetry; apply Z.eqb_neq; lia).
    simpl. now rewrite Z.eqb_refl. }
  split; [|split; [|split; [exact Hp|]]].
  - intros t Ht. apply stopAudioAnalysis_keeps_other_tracks.
    + unfold w2. simpl. apply in_or_app. right. apply in_or_app. now left.
    + unfold w2. simpl. intros stream [= <-]. now apply Htracks.
  - apply stopAudioAnalysis_keeps_other_contexts.
    + unfold w2. simpl. right. now left.
    + unfold w2. simpl. intros audioContext [= <-]. auto.
  - intros input. simpl. unfold runFrame. rewrite Hp.
    rewrite animate_returns_when_not_ready.
    + reflexivity.
    + left. simpl. apply (stopAudioAnalysis_nulls_refs w2).
Qed.

Lemma overlapping_acquisitions_leak_the_first_witness :
  let second := {| streamId := 2; tracks := [20] |} in
  let secondContext := {| contextId := 2; sampleRate := 48000%R |} in
  canvasRef (component idleWorld) = Some theCanvas
  /\ has2d theCanvas = true
  /\ pendingFrames (host idleWorld) = []
  /\ 0 < nextHandle (host idleWorld)
  /\ (forall t, In t (tracks oneTrackStream) -> ~ In t (tracks second))
  /\ contextId context44100 <> contextId secondContext
  /\ exists w1 w2,
       startAudioAnalysis (Acquired oneTrackStream context44100) quietFrame []
         idleWorld = Ok w1
       /\ startAudioAnalysis (Acquired second secondContext) quietFrame [] w1 = Ok w2
       /\ In 10 (liveTracks (host (stopAudioAnalysis w2)))
       /\ pendingFrames (host (stopAudioAnalysis w2)) = [(1, [])].
Proof.
  intros second secondContext.
  assert (Htracks : forall t, In t (tracks oneTrackStream) -> ~ In t (tracks second)).
  { simpl. intros t [<-|[]] [H|[]]. discriminate. }
  assert (Hids : contextId context44100 <> contextId secondContext)
    by (simpl; discriminate).
  split; [reflexivity|]. split; [reflexivity|]. split; [reflexivity|].
  split; [simpl; lia|]. split; [exact Htracks|]. split; [exact Hids|].
  destruct (overlapping_acquisitions_leak_the_first oneTrackStream second
              context44100 secondContext quietFrame quietFrame [] [] theCanvas
              idleWorld eq_refl eq_refl eq_refl ltac:(simpl; lia) Htracks Hids)
    as (w1 & w2 & H1 & H2 & Hlive & _ & Hp & _).
  exists w1, w2. split; [exact H1|]. split; [exact H2|]. split; [|exact Hp].
  apply Hlive. now left.
Defined.

(** X8. An acquisition that settles when the canvas is gone (the component
    was unmounted while [getUserMedia] was pending) still stores the stream,
    context and analyser in the refs and leaves the tracks capturing, but
    draws nothing and requests no frame: nothing that runs by itself will
    stop the tracks. *)
Theorem acquisition_without_canvas_holds_stream_and_never_draws
    {N : Type} {arith : Arith N} {libm : Libm N}
    (stream : MediaStream) (audioContext : AudioContext N)
    (input : FrameInput) (bound : list SpectrumData) (w : World N)
    (Hgone : canvasRef (component w) = None) :
  exists w',
    startAudioAnalysis (Acquired stream audioContext) input bound w = Ok w'
    /\ streamRef (component w') = Some stream
    /\ audioContextRef (component w') = Some audioContext
    /\ (forall t, In t (tracks stream) -> In t (liveTracks (host w')))
    /\ In (contextId audioContext) (openContexts (host w'))
    /\ pendingFrames (host w') = pendingFrames (host w)
    /\ surface (host w') = surface (host w)
    /\ spectrumHistory (component w') = spectrumHistory (component w)
    /\ forall inputs, pendingFrames (host w) = [] ->
         runFrames inputs w' = Ok (w', 0%nat).
Proof.
  eexists. split.
  - unfold startAudioAnalysis. apply animate_returns_when_not_ready.
    right. left. exact Hgone.
  - simpl. repeat split; auto.
    + intros t Ht. apply in_or_app. now left.
    + intros inputs Hnone. now apply runFrames_nothing_pending.
Qed.

Lemma acquisition_without_canvas_holds_stream_and_never_draws_witness :
  let unmounted : World R :=
    {| component :=
         {| canvasRef := None; audioContextRef := None; analyserRef := None;
            streamRef := None; animationRef := 0; spectrumHistory := [];
            isActive := false |};
       host := host idleWorld |} in
  canvasRef (component unmounted) = None
  /\ exists w',
       startAudioAnalysis (Acquired oneTrackStream context44100) quietFrame []
         unmounted = Ok w'
       /\ In 10 (liveTracks (host w'))
       /\ pendingFrames (host w') = [].
Proof.
  intros unmounted. split; [reflexivity|].
  destruct (acquisition_without_canvas_holds_stream_and_never_draws oneTrackStream
              context44100 quietFrame [] unmounted eq_refl)
    as (w' & Hrun & _ & _ & Hlive & _ & Hp & _).
  exists w'. split; [exact Hrun|]. split; [|exact Hp].
  apply Hlive. now left.
Defined.

(* ================================================================== *)
(** ** Further properties of the drawing routines *)
(* ================================================================== *)

(** The loop of [drawLogSpectrum] visits exactly the even columns left of
    the canvas width. *)
Lemma pixelColumns_spec (canvasWidth pixelX : Z) :
  In pixelX (pixelColumns canvasWidth)
  <-> 0 <= pixelX < canvasWidth /\ Z.even pixelX = true.
Proof.
  unfold pixelColumns. rewrite in_map_iff. split.
  - intros (k & <- & Hk). apply in_seq in Hk.
    pose proof (Z.div_mod (canvasWidth + 1) 2 ltac:(lia)) as Hdiv.
    pose proof (Z.mod_pos_bound (canvasWidth + 1) 2 ltac:(lia)) as Hmod.
    split; [lia|]. rewrite Z.even_mul. reflexivity.
  - intros [Hrange Heven].
    apply Z.even_spec in Heven. destruct Heven as [half ->].
    exists (Z.to_nat half). split; [lia|].
    apply in_seq.
    pose proof (Z.div_mod (2 * half + 1 + (canvasWidth - 2 * half - 1) + 1) 2
                  ltac:(lia)) as Hdiv.
    pose proof (Z.mod_pos_bound (canvasWidth + 1) 2 ltac:(lia)) as Hmod.
    pose proof (Z.div_mod (canvasWidth + 1) 2 ltac:(lia)) as Hdiv'.
    split; [lia|]. simpl. lia.
Qed.

Lemma pixelColumns_length (canvasWidth : Z) :
  length (pixelColumns canvasWidth) = Z.to_nat ((canvasWidth + 1) / 2).
Proof. unfold pixelColumns. now rewrite length_map, length_seq. Qed.

Section BarFacts.

Context {N : Type} {arith : Arith N} {libm : Libm N}.

Lemma forEachColumn_length (body : Z -> Result (list (DrawOp N))) (columns : list Z)
    (all : list (DrawOp N)) :
  (forall pixelX ops, body pixelX = Ok ops -> (length ops <= 1)%nat) ->
  forEachColumn body columns = Ok all -> (length all <= length columns)%nat.
Proof.
  intros Hone. revert all.
  induction columns as [|p rest IH]; intros all Hall; simpl in Hall.
  - injection Hall as <-. simpl. lia.
  - destruct (body p) as [ops|] eqn:Hp; [|discriminate].
    destruct (forEachColumn body rest) as [more|] eqn:Hrest; [|discriminate].
    simpl in Hall. injection Hall as <-.
    rewrite length_app. simpl.
    specialize (Hone p ops Hp). specialize (IH more eq_refl). lia.
Qed.

Lemma drawBar_at_most_one (canvas : Canvas) (nyquist frequencyPerBin : N)
    (dataArray : list Z) (bufferLength pixelX : Z) (ops : list (DrawOp N)) :
  drawBar canvas nyquist frequencyPerBin dataArray bufferLength pixelX = Ok ops ->
  (length ops <= 1)%nat.
Proof.
  unfold drawBar.
  destruct (xToFrequencyBinIndex _ _ _ _) as [binIndex|]; [|intros [= <-]; simpl; lia].
  destruct ((binIndex >=? 0) && (binIndex <? bufferLength));
    [|intros [= <-]; simpl; lia].
  destruct (nth_error dataArray (Z.to_nat binIndex)); [|discriminate].
  intros [= <-]. simpl. lia.
Qed.

(** Every bar is the bar of a visited column and of an element of the
    array. *)
Lemma drawLogSpectrum_bars (canvas : Canvas) (audioContextRef : option (AudioContext N))
    (dataArray : list Z) (bufferLength : Z) (bars : list (DrawOp N)) :
  drawLogSpectrum canvas audioContextRef dataArray bufferLength = Ok bars ->
  Forall (fun op =>
            exists pixelX amplitude,
              In pixelX (pixelColumns (width canvas))
              /\ In amplitude dataArray
              /\ op = FillRect (Css "#00ff00") (ofZ pixelX)
                        (ofZ (height canvas)
                         - ofZ amplitude / ofZ 255 * ofZ (height canvas))%js
                        (ofZ 2)
                        (ofZ amplitude / ofZ 255 * ofZ (height canvas))%js) bars
  /\ (length bars <= length (pixelColumns (width canvas)))%nat.
Proof.
  unfold drawLogSpectrum. destruct audioContextRef as [audioContext|].
  - intros Hall. split.
    + eapply forEachColumn_Forall; [|exact Hall].
      intros pixelX ops Hin Hops. apply drawBar_shape in Hops.
      eapply Forall_impl; [|exact Hops].
      intros op (amplitude & Ha & ->). now exists pixelX, amplitude.
    + eapply forEachColumn_length; [|exact Hall].
      intros pixelX ops. apply drawBar_at_most_one.
  - intros [= <-]. split; [constructor|simpl; lia].
Qed.

End BarFacts.

(** X9. On byte data, in real arithmetic, [drawLogSpectrum] draws at most
    one bar per visited column, that is at most half the canvas width
    (rounded up); every bar is green, 2 pixels wide, starts at an even
    column inside the canvas, is between 0 and the canvas height tall and
    stands on the bottom edge of the canvas. *)
Theorem bars_stand_on_bottom_edge_at_even_columns
    (canvas : Canvas) (audioContextRef : option (AudioContext R))
    (dataArray : list Z) (bufferLength : Z)
    (Hlen : length dataArray = Z.to_nat bufferLength)
    (Hbytes : Forall (fun a => 0 <= a <= 255) dataArray)
    (Hheight : 0 <= height canvas) :
  exists bars,
    drawLogSpectrum canvas audioContextRef dataArray bufferLength = Ok bars
    /\ (length bars <= Z.to_nat ((width canvas + 1) / 2))%nat
    /\ Forall (fun op =>
                 exists pixelX barHeight,
                   op = FillRect (Css "#00ff00") (IZR pixelX)
                          (IZR (height canvas) - barHeight)%R 2%R barHeight
                   /\ 0 <= pixelX < width canvas
                   /\ Z.even pixelX = true
                   /\ (0 <= barHeight <= IZR (height canvas))%R) bars.
Proof.
  destruct (drawLogSpectrum_total canvas audioContextRef dataArray bufferLength Hlen)
    as [bars Hbars].
  exists bars. split; [exact Hbars|].
  destruct (drawLogSpectrum_bars canvas audioContextRef dataArray bufferLength bars Hbars)
    as [Hshape Hcount].
  split; [now rewrite <- pixelColumns_length|].
  eapply Forall_impl; [|exact Hshape].
  intros op (pixelX & amplitude & Hcol & Ha & ->).
  apply pixelColumns_spec in Hcol. destruct Hcol as [Hrange Heven].
  rewrite Forall_forall in Hbytes. specialize (Hbytes amplitude Ha).
  exists pixelX, (IZR amplitude / 255 * IZR (height canvas))%R.
  split; [reflexivity|]. split; [exact Hrange|]. split; [exact Heven|].
  assert (H0 : (0 <= IZR amplitude <= 255)%R).
  { split; [apply (IZR_le 0)|apply (IZR_le _ 255)]; lia. }
  assert (HH : (0 <= IZR (height canvas))%R) by (now apply (IZR_le 0)).
  assert (Hr : (0 <= IZR amplitude / 255 <= 1)%R) by lra.
  split; [apply Rmult_le_pos; lra|].
  rewrite <- (Rmult_1_l (IZR (height canvas))) at 2.
  apply Rmult_le_compat_r; lra.
Qed.

Lemma bars_stand_on_bottom_edge_at_even_columns_witness :
  length [0; 128; 255; 7] = Z.to_nat 4
  /\ Forall (fun a => 0 <= a <= 255) [0; 128; 255; 7]
  /\ 0 <= height theCanvas
  /\ exists bars,
       drawLogSpectrum theCanvas (Some context44100) [0; 128; 255; 7] 4 = Ok bars
       /\ (length bars <= 400)%nat.
Proof.
  assert (Hbytes : Forall (fun a => 0 <= a <= 255) [0; 128; 255; 7])
    by (repeat constructor; lia).
  assert (Hheight : 0 <= height theCanvas) by (simpl; unfold CANVAS_HEIGHT; lia).
  split; [reflexivity|]. split; [exact Hbytes|]. split; [exact Hheight|].
  destruct (bars_stand_on_bottom_edge_at_even_columns theCanvas (Some context44100)
              [0; 128; 255; 7] 4 eq_refl Hbytes Hheight) as (bars & Hdraw & Hcount & _).
  exists bars. split; [exact Hdraw|exact Hcount].
Defined.

Section MappingFacts.
Local Open Scope R_scope.

(** The frequency shown at a pixel grows with the pixel. *)
Lemma xToFrequency_increasing (nyquist : R) (canvasWidth : Z) (x1 x2 : R) :
  20 < nyquist -> (0 < canvasWidth)%Z -> x1 <= x2 ->
  xToFrequency nyquist canvasWidth x1 <= xToFrequency nyquist canvasWidth x2.
Proof.
  intros Hny Hw Hx.
  pose proof (logRange_pos nyquist Hny) as Hr.
  pose proof ln10_pos as H10.
  assert (Hw' : 0 < IZR canvasWidth) by (now apply (IZR_lt 0)).
  unfold xToFrequency. cbn [add sub mul div ofZ Arith_R pow Libm_R].
  unfold Rpower.
  assert (Hq : x1 / IZR canvasWidth <= x2 / IZR canvasWidth).
  { apply Rmult_le_compat_r; [left; now apply Rinv_0_lt_compat|exact Hx]. }
  assert (He : (logMinFreq + x1 / IZR canvasWidth * logRange nyquist) * ln 10
               <= (logMinFreq + x2 / IZR canvasWidth * logRange nyquist) * ln 10).
  { apply Rmult_le_compat_r; [lra|].
    apply Rplus_le_compat_l. apply Rmult_le_compat_r; lra. }
  destruct He as [He|He]; [left; now apply exp_increasing|right; now rewrite He].
Qed.

Lemma xToFrequency_pos (nyquist : R) (canvasWidth : Z) (x : R) :
  0 < xToFrequency nyquist canvasWidth x.
Proof.
  unfold xToFrequency. cbn [pow Libm_R]. unfold Rpower. apply exp_pos.
Qed.

Lemma Int_part_le (r1 r2 : R) : r1 <= r2 -> (Int_part r1 <= Int_part r2)%Z.
Proof.
  intros Hr.
  destruct (base_Int_part r1) as [H1 _]. destruct (base_Int_part r2) as [_ H2].
  assert (H : IZR (Int_part r1) < IZR (Int_part r2 + 1)) by (rewrite plus_IZR; lra).
  apply lt_IZR in H. lia.
Qed.

End MappingFacts.

(** X10. In real arithmetic, for a Nyquist frequency above 20 Hz, a canvas
    of positive width and a positive bin width, the bin shown at a pixel is
    never negative and never decreases from left to right: the bar loop
    walks the spectrum in order. *)
Theorem bin_index_grows_with_pixel
    (nyquist : R) (canvasWidth : Z) (frequencyPerBin x1 x2 : R)
    (Hny : (20 < nyquist)%R) (Hw : 0 < canvasWidth)
    (Hbin : (0 < frequencyPerBin)%R) (Hx : (x1 <= x2)%R) :
  exists bin1 bin2,
    xToFrequencyBinIndex nyquist canvasWidth x1 frequencyPerBin = Some bin1
    /\ xToFrequencyBinIndex nyquist canvasWidth x2 frequencyPerBin = Some bin2
    /\ 0 <= bin1 <= bin2.
Proof.
  unfold xToFrequencyBinIndex. cbn [round Libm_R div Arith_R].
  eexists. eexists. split; [reflexivity|]. split; [reflexivity|].
  pose proof (xToFrequency_increasing nyquist canvasWidth x1 x2 Hny Hw Hx) as Hinc.
  pose proof (xToFrequency_pos nyquist canvasWidth x1) as Hpos.
  assert (Hinv : (0 < / frequencyPerBin)%R) by (now apply Rinv_0_lt_compat).
  split.
  - assert (H0 : (0 <= xToFrequency nyquist canvasWidth x1 / frequencyPerBin)%R).
    { apply Rmult_le_pos; lra. }
    destruct (base_Int_part
                (xToFrequency nyquist canvasWidth x1 / frequencyPerBin + / 2))
      as [_ Hfloor].
    assert (H : (IZR (-1) < IZR (Int_part
                  (xToFrequency nyquist canvasWidth x1 / frequencyPerBin + / 2)))%R)
      by lra.
    apply lt_IZR in H. lia.
  - apply Int_part_le. apply Rplus_le_compat_r.
    apply Rmult_le_compat_r; lra.
Qed.

Lemma bin_index_grows_with_pixel_witness :
  (20 < 44100 / 2)%R /\ 0 < 800 /\ (0 < 44100 / 2 / 1024)%R /\ (0 <= 798)%R
  /\ exists bin1 bin2,
       xToFrequencyBinIndex (44100 / 2)%R 800 0%R (44100 / 2 / 1024)%R = Some bin1
       /\ xToFrequencyBinIndex (44100 / 2)%R 800 798%R (44100 / 2 / 1024)%R = Some bin2
       /\ 0 <= bin1 <= bin2.
Proof.
  assert (Hny : (20 < 44100 / 2)%R) by lra.
  assert (Hw : 0 < 800) by lia.
  assert (Hbin : (0 < 44100 / 2 / 1024)%R) by lra.
  assert (Hx : (0 <= 798)%R) by lra.
  split; [exact Hny|]. split; [exact Hw|]. split; [exact Hbin|]. split; [exact Hx|].
  exact (bin_index_grows_with_pixel (44100 / 2)%R 800 (44100 / 2 / 1024)%R 0%R 798%R
           Hny Hw Hbin Hx).
Defined.

(** X11. In real arithmetic, when 220 Hz is not above the Nyquist frequency
    (a sample rate of at least 440 Hz), the reference marker is one vertical
    white stroke, 2 wide, from the top edge down to two thirds of the canvas
    height, at a horizontal position on the canvas, with the label "220Hz"
    5 pixels to its right at y = 15.  Without an audio context nothing is
    drawn. *)
Theorem reference_line_is_on_canvas
    (canvas : Canvas) (audioContext : AudioContext R)
    (Hwidth : 0 <= width canvas)
    (Hrate : (220 <= sampleRate audioContext / 2)%R) :
  (exists x : R,
     (0 <= x <= IZR (width canvas))%R
     /\ draw220HzLine canvas (Some audioContext)
        = [StrokeLine (Css "#ffffff") 2%R x 0%R x (IZR (height canvas) * 2 / 3)%R;
           FillText (Css "#ffffff") "220Hz" (x + 5)%R 15%R])
  /\ draw220HzLine canvas (@None (AudioContext R)) = [].
Proof.
  split; [|reflexivity].
  exists (frequencyToX (sampleRate audioContext / 2)%R (width canvas) 220%R).
  split; [|reflexivity].
  apply frequencyToX_range; [lra|exact Hwidth|lra].
Qed.

Lemma reference_line_is_on_canvas_witness :
  0 <= width theCanvas
  /\ (220 <= sampleRate context44100 / 2)%R
  /\ exists x : R,
       (0 <= x <= 800)%R
       /\ draw220HzLine theCanvas (Some context44100)
          = [StrokeLine (Css "#ffffff") 2%R x 0%R x (400 * 2 / 3)%R;
             FillText (Css "#ffffff") "220Hz" (x + 5)%R 15%R].
Proof.
  assert (Hwidth : 0 <= width theCanvas) by (simpl; unfold CANVAS_WIDTH; lia).
  assert (Hrate : (220 <= sampleRate context44100 / 2)%R) by (simpl; lra).
  split; [exact Hwidth|]. split; [exact Hrate|].
  exact (proj1 (reference_line_is_on_canvas theCanvas context44100 Hwidth Hrate)).
Defined.

Section CellFacts.
Local Open Scope R_scope.

(** The cells of one history entry: one per amplitude, at the entry's x,
    stacked by index, coloured from the amplitude. *)
Lemma cells_shape (x top step : R) (amplitudes : list Z) (index : Z) :
  Forall (fun op =>
            exists amplitude i,
              In amplitude amplitudes
              /\ (index <= i < index + Z.of_nat (length amplitudes))%Z
              /\ op = FillRect
                        (Hsl (240 - IZR amplitude / 255 * 240)
                             (50 * (IZR amplitude / 255)))
                        x (top + IZR i * step) 2 step)
    (forEachIndexed (fun amplitude freqIndex =>
       let y := (top + (ofZ freqIndex * step))%js in
       let intensity := (ofZ amplitude / ofZ 255)%js in
       let hue := (ofZ 240 - (intensity * ofZ 240))%js in
       [FillRect (Hsl hue (ofZ 50 * intensity)%js) x y (ofZ 2) step])
       amplitudes index).
Proof.
  revert index. induction amplitudes as [|a rest IH]; intros index; simpl.
  - constructor.
  - constructor.
    + exists a, index. split; [now left|]. split; [lia|reflexivity].
    + eapply Forall_impl; [|apply IH].
      intros op (amplitude & i & Ha & Hi & ->).
      exists amplitude, i. split; [now right|]. split; [lia|reflexivity].
Qed.

Lemma ageToX_range (age canvasWidth : Z) :
  (0 <= age <= HISTORY_DURATION)%Z -> (0 <= canvasWidth)%Z ->
  0 <= ageToX (IZR age) (IZR canvasWidth) (IZR HISTORY_DURATION) <= IZR canvasWidth.
Proof.
  intros [Hlo Hhi] Hw.
  apply IZR_le in Hlo, Hhi, Hw. change (IZR HISTORY_DURATION) with 300000 in *.
  unfold ageToX. cbn [sub mul div Arith_R].
  set (q := IZR canvasWidth / 300000).
  assert (Hq : 0 <= q) by (unfold q; apply Rmult_le_pos; lra).
  assert (Hfull : 300000 * q = IZR canvasWidth) by (unfold q; field).
  assert (H1 : 0 <= IZR age * q) by (apply Rmult_le_pos; lra).
  assert (H2 : IZR age * q <= 300000 * q) by (apply Rmult_le_compat_r; lra).
  lra.
Qed.

End CellFacts.

(** X12. In real arithmetic, for a history whose timestamps are not after
    the drawing clock and whose amplitudes are bytes, every rectangle of the
    spectrogram is a cell 2 pixels wide whose left edge is on the canvas
    (entries older than five minutes are skipped), whose vertical extent is
    inside the bottom third, and whose colour runs from hue 240 at
    lightness 0 (silence) to hue 0 at lightness 50 (full scale):
    hue = 240 - 4.8 * lightness. *)
Theorem spectrogram_cells_are_on_canvas_and_blue_to_red
    (canvas : Canvas) (now : Z) (history : list SpectrumData)
    (Hwidth : 0 <= width canvas) (Hheight : 0 <= height canvas)
    (Hpast : Forall (fun e => timestamp e <= now) history)
    (Hbytes : Forall (fun e => Forall (fun a => 0 <= a <= 255) (frequencies e))
                history) :
  Forall (fun op =>
            match op with
            | FillRect (Hsl hue lightness) x y w h =>
                (0 <= x <= IZR (width canvas))%R
                /\ w = 2%R
                /\ (2 / 3 * IZR (height canvas) <= y)%R
                /\ (y + h <= IZR (height canvas))%R
                /\ (0 <= hue <= 240)%R
                /\ (0 <= lightness <= 50)%R
                /\ hue = (240 - 4.8 * lightness)%R
            | FillRect (Css _) _ _ _ _ => False
            | StrokeLine _ _ _ _ _ _ => False
            | FillText _ _ _ _ => True
            end)
    (drawSpectrogram canvas now history).
Proof.
  pose proof (drawSpectrogram_withinBottomThird canvas Hheight now history) as Hband.
  revert Hband. unfold drawSpectrogram.
  destruct (Z.of_nat (length history) =? 0)%Z; [constructor|].
  rewrite !Forall_app. intros [Hband _]. split; [|repeat constructor].
  rewrite Forall_flat_map in *. rewrite Forall_forall in *.
  intros data Hdata. specialize (Hband data Hdata).
  specialize (Hpast data Hdata). specialize (Hbytes data Hdata).
  revert Hband.
  destruct (now - timestamp data >? HISTORY_DURATION)%Z eqn:Hage; [constructor|].
  intros Hband.
  assert (Hx := ageToX_range (now - timestamp data) (width canvas)
                  ltac:(rewrite Z.gtb_ltb in Hage; apply Z.ltb_ge in Hage; lia) Hwidth).
  match goal with
  | |- Forall _ (forEachIndexed _ ?l ?i) =>
      pose proof (cells_shape
        (ageToX (ofZ (now - timestamp data)) (ofZ (width canvas)) (ofZ HISTORY_DURATION))
        (ofZ (height canvas) - ofZ (height canvas) / ofZ 3)%js
        (ofZ (height canvas) / ofZ 3 / ofZ (Z.of_nat (length l)))%js l i) as Hshape
  end.
  rewrite Forall_forall in *.
  intros op Hop. specialize (Hband op Hop). specialize (Hshape op Hop).
  destruct Hshape as (amplitude & i & Ha & _ & ->).
  simpl in Hband. destruct Hband as [Hy Hyh].
  specialize (Hbytes amplitude Ha).
  assert (H0 : (0 <= IZR amplitude <= 255)%R).
  { split; [apply (IZR_le 0)|apply (IZR_le _ 255)]; lia. }
  split; [exact Hx|]. split; [reflexivity|]. split; [exact Hy|].
  split; [exact Hyh|]. split; [lra|]. split; [lra|lra].
Qed.

Lemma spectrogram_cells_are_on_canvas_and_blue_to_red_witness :
  let history := [ {| timestamp := 1000; frequencies := [0; 255] |};
                   {| timestamp := 2000; frequencies := [128; 64] |} ] in
  0 <= width theCanvas /\ 0 <= height theCanvas
  /\ Forall (fun e => timestamp e <= 2000) history
  /\ Forall (fun e => Forall (fun a => 0 <= a <= 255) (frequencies e)) history
  /\ Forall (fun op =>
               match op with
               | FillRect (Hsl hue lightness) x y w h =>
                   (0 <= x <= 800)%R /\ (0 <= hue <= 240)%R
               | FillRect (Css _) _ _ _ _ => False
               | StrokeLine _ _ _ _ _ _ => False
               | FillText _ _ _ _ => True
               end)
       (drawSpectrogram theCanvas 2000 history).
Proof.
  intros history.
  assert (Hwidth : 0 <= width theCanvas) by (simpl; unfold CANVAS_WIDTH; lia).
  assert (Hheight : 0 <= height theCanvas) by (simpl; unfold CANVAS_HEIGHT; lia).
  assert (Hpast : Forall (fun e => timestamp e <= 2000) history)
    by (repeat constructor; simpl; lia).
  assert (Hbytes : Forall (fun e => Forall (fun a => 0 <= a <= 255) (frequencies e))
                     history)
    by (repeat constructor; simpl; lia).
  split; [exact Hwidth|]. split; [exact Hheight|]. split; [exact Hpast|].
  split; [exact Hbytes|].
  eapply Forall_impl;
    [|exact (spectrogram_cells_are_on_canvas_and_blue_to_red theCanvas 2000 history
               Hwidth Hheight Hpast Hbytes)].
  intros [[c|hue lightness] x y w h| |]; simpl; tauto.
Defined.

(* ================================================================== *)
(** ** The history readout *)
(* ================================================================== *)

(** The oldest retained entry after a run of appends at non-decreasing
    times is not newer than the newest and is within the window. *)
Lemma oldest_retained_age (W : Z) (snaps : list SpectrumData)
    (newest oldest : SpectrumData) (rest : list SpectrumData) :
  StronglySorted (byTime Z.le) (snaps ++ [newest]) ->
  appendAll W [] (snaps ++ [newest]) = oldest :: rest ->
  0 <= timestamp newest - timestamp oldest <= W.
Proof.
  intros Hs Hhist.
  assert (Hin : In oldest (appendAll W [] (snaps ++ [newest])))
    by (rewrite Hhist; now left).
  rewrite (appendAll_is_window W snaps newest Hs) in Hin.
  apply filter_In in Hin. destruct Hin as [Hin Hage].
  apply Z.leb_le in Hage. split; [|exact Hage].
  destruct (StronglySorted_app_inv _ _ _ Hs) as (_ & _ & Hle).
  apply in_app_or in Hin. destruct Hin as [Hin|[<-|[]]]; [|lia].
  specialize (Hle oldest newest Hin ltac:(now left)). unfold byTime in Hle. lia.
Qed.

(** X13. After snapshots were appended at non-decreasing times, the status
    line shows a readout, and, in real arithmetic, rendered [lag]
    milliseconds after the newest append it shows a whole number of seconds
    [s] with [0 <= s] and [1000 * s <= 300500 + lag]: at most 300 when
    rendered at the time of the append. *)
Theorem history_readout_is_bounded
    (snaps : list SpectrumData) (newest : SpectrumData) (lag : Z)
    (Hclock : StronglySorted (byTime Z.le) (snaps ++ [newest]))
    (Hlag : 0 <= lag) :
  exists seconds,
    historyReadout (N:=R) (timestamp newest + lag)
      (appendAll HISTORY_DURATION [] (snaps ++ [newest])) = Some seconds
    /\ 0 <= seconds
    /\ 1000 * seconds <= 300500 + lag.
Proof.
  destruct (appendAll HISTORY_DURATION [] (snaps ++ [newest]))
    as [|oldest rest] eqn:Hhist.
  { exfalso.
    assert (Hin : In newest (appendAll HISTORY_DURATION [] (snaps ++ [newest]))).
    { rewrite (appendAll_is_window _ snaps newest Hclock).
      apply filter_In. split; [apply in_or_app; right; now left|].
      apply Z.leb_le. unfold HISTORY_DURATION. lia. }
    rewrite Hhist in Hin. destruct Hin. }
  pose proof (oldest_retained_age HISTORY_DURATION snaps newest oldest rest Hclock Hhist)
    as [Hlo Hhi].
  unfold historyReadout. cbn [round Libm_R div ofZ Arith_R].
  eexists. split; [reflexivity|].
  set (d := timestamp newest + lag - timestamp oldest).
  assert (Hd : 0 <= d <= 300000 + lag) by (unfold d, HISTORY_DURATION in *; lia).
  destruct Hd as [Hd0 Hd1]. apply IZR_le in Hd0, Hd1. rewrite plus_IZR in Hd1.
  destruct (base_Int_part (IZR d / 1000 + / 2)) as [Hfloor Hceil].
  set (s := Int_part (IZR d / 1000 + / 2)) in *.
  split.
  - assert (H : (IZR (-1) < IZR s)%R) by lra.
    apply lt_IZR in H. lia.
  - apply le_IZR. rewrite mult_IZR, plus_IZR. lra.
Qed.

Lemma history_readout_is_bounded_witness :
  let snaps := [ {| timestamp := 0; frequencies := [1] |};
                 {| timestamp := 200000; frequencies := [2] |} ] in
  let newest := {| timestamp := 400000; frequencies := [3] |} in
  StronglySorted (byTime Z.le) (snaps ++ [newest]) /\ 0 <= 0
  /\ exists seconds,
       historyReadout (N:=R) (400000 + 0)
         (appendAll HISTORY_DURATION [] (snaps ++ [newest])) = Some seconds
       /\ 0 <= seconds /\ 1000 * seconds <= 300500 + 0.
Proof.
  intros snaps newest.
  assert (H : StronglySorted (byTime Z.le) (snaps ++ [newest])).
  { unfold snaps, newest, byTime. repeat constructor; simpl; lia. }
  split; [exact H|]. split; [lia|].
  exact (history_readout_is_bounded snaps newest 0 H ltac:(lia)).
Defined.

(* ================================================================== *)
(** ** Properties of the microphone selector *)
(* ================================================================== *)

Section SelectorFacts.
Import MicrophoneSelector.

Lemma describe_label_not_empty (device : Device) :
  label (describe device) <> ""%string.
Proof.
  unfold describe. simpl.
  destruct (String.eqb (device_label device) "") eqn:Hl.
  - discriminate.
  - now apply String.eqb_neq.
Qed.

Lemma probe_spec (stream : MediaStream) (liveTracks : list Z) (t : Z) :
  In t (probe stream liveTracks) <-> In t liveTracks /\ ~ In t (tracks stream).
Proof.
  unfold probe. rewrite filter_In, in_app_iff, negb_true_iff.
  split.
  - intros [Hin Hkeep].
    assert (Hnot : ~ In t (tracks stream)).
    { intros Ht. assert (existsb (Z.eqb t) (tracks stream) = true); [|congruence].
      apply existsb_exists. exists t. split; [exact Ht|apply Z.eqb_refl]. }
    split; [tauto|exact Hnot].
  - intros [Hin Hnot]. split; [now right|].
    apply not_true_is_false. intros Hex.
    apply existsb_exists in Hex. destruct Hex as (u & Hu & Heq).
    apply Z.eqb_eq in Heq. now subst u.
Qed.

End SelectorFacts.

(** X14. When the devices are listed, the selector offers exactly the audio
    inputs, in the order of the enumeration and under their device ids;
    every offered microphone has a non-empty label (its own, or
    "Microphone " followed by the first 8 characters of its id); loading is
    over and no error is shown, so the view is the select box with one
    option per audio input. *)
Theorem listed_microphones_are_the_audio_inputs
    (stream : MediaStream) (devices : list MicrophoneSelector.Device)
    (st : MicrophoneSelector.State) (liveTracks : list Z)
    (selectedMicrophone : String.string) :
  let st' := fst (MicrophoneSelector.getMicrophones
                    (MicrophoneSelector.Enumerated stream devices) st liveTracks) in
  let audioInputs :=
    filter (fun d => String.eqb (MicrophoneSelector.kind d) "audioinput") devices in
  map MicrophoneSelector.deviceId (MicrophoneSelector.microphones st')
  = map MicrophoneSelector.device_deviceId audioInputs
  /\ Forall (fun mic => MicrophoneSelector.label mic <> ""%string)
       (MicrophoneSelector.microphones st')
  /\ Forall2 (fun mic d =>
                (MicrophoneSelector.device_label d <> ""%string ->
                 MicrophoneSelector.label mic = MicrophoneSelector.device_label d)
                /\ (MicrophoneSelector.device_label d = ""%string ->
                    MicrophoneSelector.label mic
                    = String.append "Microphone "
                        (String.substring 0 8 (MicrophoneSelector.device_deviceId d))))
       (MicrophoneSelector.microphones st') audioInputs
  /\ MicrophoneSelector.isLoading st' = false
  /\ MicrophoneSelector.error st' = None
  /\ exists options,
       MicrophoneSelector.render st' selectedMicrophone
       = MicrophoneSelector.SelectBox selectedMicrophone options
       /\ map fst options = map MicrophoneSelector.device_deviceId audioInputs.
Proof.
  intros st' audioInputs. subst st'. simpl. fold audioInputs.
  split; [|split; [|split; [|split; [|split]]]].
  - rewrite map_map. reflexivity.
  - apply Forall_map. apply Forall_forall. intros d _.
    apply describe_label_not_empty.
  - induction audioInputs as [|d rest IH]; simpl; constructor; [|exact IH].
    unfold MicrophoneSelector.describe. simpl. split; intros Hl.
    + apply String.eqb_neq in Hl. now rewrite Hl.
    + rewrite Hl. reflexivity.
  - reflexivity.
  - reflexivity.
  - unfold MicrophoneSelector.render. simpl. eexists. split; [reflexivity|].
    rewrite !map_map. reflexivity.
Qed.

(** X15. On every path of [getMicrophones] loading ends, so the loading
    note is never shown afterwards.  A failure leaves the list as it was and
    shows the thrown error's message ("Failed to access microphones" for a
    value that is not an Error), unless that message is empty: then the
    select box is shown as if nothing had failed.  The probing stream never
    stays open: afterwards the capturing tracks are those that were
    capturing before, less the tracks of the probing stream. *)
Theorem probing_ends_loading_and_releases_the_stream
    (probing : MicrophoneSelector.Probing) (st : MicrophoneSelector.State)
    (liveTracks : list Z) (selectedMicrophone : String.string) :
  let st' := fst (MicrophoneSelector.getMicrophones probing st liveTracks) in
  let live' := snd (MicrophoneSelector.getMicrophones probing st liveTracks) in
  let failed (err : MicrophoneSelector.Thrown) :=
    MicrophoneSelector.microphones st' = MicrophoneSelector.microphones st
    /\ (MicrophoneSelector.errorMessage err <> ""%string ->
        MicrophoneSelector.render st' selectedMicrophone
        = MicrophoneSelector.ErrorNote (MicrophoneSelector.errorMessage err))
    /\ (MicrophoneSelector.errorMessage err = ""%string ->
        MicrophoneSelector.render st' selectedMicrophone
        = MicrophoneSelector.SelectBox selectedMicrophone
            (map (fun mic => (MicrophoneSelector.deviceId mic,
                              MicrophoneSelector.label mic))
               (MicrophoneSelector.microphones st))) in
  MicrophoneSelector.isLoading st' = false
  /\ MicrophoneSelector.render st' selectedMicrophone <> MicrophoneSelector.LoadingNote
  /\ match probing with
     | MicrophoneSelector.PermissionRejected err => failed err /\ live' = liveTracks
     | MicrophoneSelector.EnumerationRejected stream err =>
         failed err
         /\ forall t, In t live' <-> In t liveTracks /\ ~ In t (tracks stream)
     | MicrophoneSelector.Enumerated stream _ =>
         MicrophoneSelector.error st' = None
         /\ forall t, In t live' <-> In t liveTracks /\ ~ In t (tracks stream)
     end.
Proof.
  intros st' live' failed. subst st' live' failed.
  assert (Hfailed : forall err,
            (MicrophoneSelector.errorMessage err <> ""%string ->
             MicrophoneSelector.render
               {| MicrophoneSelector.microphones := MicrophoneSelector.microphones st;
                  MicrophoneSelector.isLoading := false;
                  MicrophoneSelector.error := Some (MicrophoneSelector.errorMessage err) |}
               selectedMicrophone
             = MicrophoneSelector.ErrorNote (MicrophoneSelector.errorMessage err))
            /\ (MicrophoneSelector.errorMessage err = ""%string ->
                MicrophoneSelector.render
                  {| MicrophoneSelector.microphones := MicrophoneSelector.microphones st;
                     MicrophoneSelector.isLoading := false;
                     MicrophoneSelector.error :=
                       Some (MicrophoneSelector.errorMessage err) |}
                  selectedMicrophone
                = MicrophoneSelector.SelectBox selectedMicrophone
                    (map (fun mic => (MicrophoneSelector.deviceId mic,
                                      MicrophoneSelector.label mic))
                       (MicrophoneSelector.microphones st)))).
  { intros err. unfold MicrophoneSelector.render. simpl. split; intros Hmsg.
    - apply String.eqb_neq in Hmsg. now rewrite Hmsg.
    - rewrite Hmsg. reflexivity. }
  assert (Hnote : forall st0 : MicrophoneSelector.State,
            MicrophoneSelector.isLoading st0 = false ->
            MicrophoneSelector.render st0 selectedMicrophone
            <> MicrophoneSelector.LoadingNote).
  { intros st0 Hl. unfold MicrophoneSelector.render. rewrite Hl.
    destruct (MicrophoneSelector.error st0) as [message|]; [|discriminate].
    destruct (String.eqb message ""); discriminate. }
  destruct probing as [err|stream err|stream devices]; simpl;
    (split; [reflexivity|]); (split; [now apply Hnote|]).
  - split; [|reflexivity]. split; [reflexivity|]. apply Hfailed.
  - split; [|intros t; apply probe_spec]. split; [reflexivity|]. apply Hfailed.
  - split; [reflexivity|]. intros t. apply probe_spec.
Qed.

Lemma probing_ends_loading_and_releases_the_stream_witness :
  MicrophoneSelector.errorMessage (MicrophoneSelector.ErrorObject "Permission denied")
  <> ""%string
  /\ MicrophoneSelector.render
       (fst (MicrophoneSelector.getMicrophones
               (MicrophoneSelector.EnumerationRejected oneTrackStream
                  (MicrophoneSelector.ErrorObject "Permission denied"))
               MicrophoneSelector.initialState [10; 30])) ""
     = MicrophoneSelector.ErrorNote "Permission denied"
  /\ snd (MicrophoneSelector.getMicrophones
            (MicrophoneSelector.EnumerationRejected oneTrackStream
               (MicrophoneSelector.ErrorObject "Permission denied"))
            MicrophoneSelector.initialState [30]) = [30].
Proof.
  assert (Hmsg : MicrophoneSelector.errorMessage
                   (MicrophoneSelector.ErrorObject "Permission denied") <> ""%string)
    by discriminate.
  split; [exact Hmsg|]. split; [|reflexivity].
  destruct (probing_ends_loading_and_releases_the_stream
              (MicrophoneSelector.EnumerationRejected oneTrackStream
                 (MicrophoneSelector.ErrorObject "Permission denied"))
              MicrophoneSelector.initialState [10; 30] "")
    as (_ & _ & (_ & Hnote & _) & _).
  exact (Hnote Hmsg).
Defined.

(* ================================================================== *)
(** ** The size of the spectrogram *)
(* ================================================================== *)

Section SpectrogramSize.

Context {N : Type} {arith : Arith N}.

Lemma forEachIndexed_length {A B} (f : A -> Z -> list B) (l : list A) (index : Z) :
  (forall a i, length (f a i) = 1%nat) ->
  length (forEachIndexed f l index) = length l.
Proof.
  intros Hone. revert index. induction l as [|a rest IH]; intros index; simpl.
  - reflexivity.
  - rewrite length_app, Hone, IH. reflexivity.
Qed.

Lemma flat_map_length_sum {A B} (f : A -> list B) (g : A -> nat) (l : list A) :
  (forall a, length (f a) = g a) ->
  length (flat_map f l) = list_sum (map g l).
Proof.
  intros Hfg. induction l as [|a rest IH]; simpl; [reflexivity|].
  now rewrite length_app, Hfg, IH.
Qed.

(** Entries that are older than five minutes at the clock count for
    nothing. *)
Lemma recent_bins_sum (now : Z) (history : list SpectrumData) :
  list_sum
    (map (fun data =>
            if (now - timestamp data >? HISTORY_DURATION)%Z then 0%nat
            else length (frequencies data)) history)
  = list_sum
      (map (fun data => length (frequencies data))
         (filter (fun data => now - timestamp data <=? HISTORY_DURATION) history)).
Proof.
  induction history as [|data rest IH]; simpl; [reflexivity|].
  rewrite IH, Z.gtb_ltb, Z.leb_antisym.
  destruct (HISTORY_DURATION <? now - timestamp data); reflexivity.
Qed.

End SpectrogramSize.

(** X16. On a history that is not empty, [drawSpectrogram] issues one cell
    per frequency bin of every entry that is at most five minutes old at the
    drawing clock, followed by the two labels: entries that have aged out
    contribute nothing (the re-check of line 207), and when all have, only
    "Now" and "5 min ago" are drawn. *)
Theorem spectrogram_has_one_cell_per_bin_of_recent_entries
    {N : Type} {arith : Arith N}
    (canvas : Canvas) (now : Z) (oldest : SpectrumData) (rest : list SpectrumData) :
  length (drawSpectrogram (N:=N) canvas now (oldest :: rest))
  = (list_sum
       (map (fun data => length (frequencies data))
          (filter (fun data => (now - timestamp data <=? HISTORY_DURATION)%Z)
             (oldest :: rest))) + 2)%nat
  /\ (forallb (fun data => now - timestamp data >? HISTORY_DURATION) (oldest :: rest)
      = true ->
      drawSpectrogram (N:=N) canvas now (oldest :: rest)
      = [FillText (Css "#fff") "Now" (ofZ (width canvas) - ofZ 30)%js
           (ofZ (height canvas) - ofZ (height canvas) / ofZ 3 - ofZ 5)%js;
         FillText (Css "#fff") "5 min ago" (ofZ 10)
           (ofZ (height canvas) - ofZ (height canvas) / ofZ 3 - ofZ 5)%js]).
Proof.
  split.
  - unfold drawSpectrogram.
    change (Z.of_nat (length (oldest :: rest)) =? 0) with false. cbv iota.
    rewrite length_app, <- recent_bins_sum. f_equal.
    apply (flat_map_length_sum _
             (fun data : SpectrumData =>
                if (now - timestamp data >? HISTORY_DURATION)%Z then 0%nat
                else length (frequencies data))).
    intros data.
    destruct (now - timestamp data >? HISTORY_DURATION)%Z; [reflexivity|].
    apply forEachIndexed_length. reflexivity.
  - intros Hall. unfold drawSpectrogram.
    change (Z.of_nat (length (oldest :: rest)) =? 0) with false. cbv iota zeta.
    match goal with
    | |- flat_map ?f ?l ++ _ = _ =>
        assert (Hnone : flat_map f l = []); [|now rewrite Hnone]
    end.
    revert Hall. generalize (oldest :: rest) as history.
    induction history as [|data more IH]; simpl; [reflexivity|].
    intros Hall. apply andb_prop in Hall. destruct Hall as [Hold Hmore].
    rewrite Hold. simpl. now apply IH.
Qed.

Lemma spectrogram_has_one_cell_per_bin_of_recent_entries_witness :
  let aged := {| timestamp := 0; frequencies := [1; 2; 3] |} in
  forallb (fun data => 400000 - timestamp data >? HISTORY_DURATION) [aged] = true
  /\ length (drawSpectrogram (N:=R) theCanvas 400000 [aged]) = 2%nat
  /\ length (drawSpectrogram (N:=R) theCanvas 1000 [aged]) = 5%nat.
Proof.
  intros aged. split; [reflexivity|]. split.
  - rewrite (proj2 (spectrogram_has_one_cell_per_bin_of_recent_entries
                      (N:=R) theCanvas 400000 aged []) eq_refl).
    reflexivity.
  - rewrite (proj1 (spectrogram_has_one_cell_per_bin_of_recent_entries
                      (N:=R) theCanvas 1000 aged [])).
    reflexivity.
Defined.

Lemma listed_microphones_are_the_audio_inputs_witness :
  let devices :=
    [ {| MicrophoneSelector.kind := "videoinput";
         MicrophoneSelector.device_deviceId := "cam0";
         MicrophoneSelector.device_label := "Camera" |};
      {| MicrophoneSelector.kind := "audioinput";
         MicrophoneSelector.device_deviceId := "0123456789abcdef";
         MicrophoneSelector.device_label := "" |};
      {| MicrophoneSelector.kind := "audioinput";
         MicrophoneSelector.device_deviceId := "usb1";
         MicrophoneSelector.device_label := "USB microphone" |} ]%string in
  let st' := fst (MicrophoneSelector.getMicrophones
                    (MicrophoneSelector.Enumerated oneTrackStream devices)
                    MicrophoneSelector.initialState []) in
  map MicrophoneSelector.deviceId (MicrophoneSelector.microphones st')
  = ["0123456789abcdef"; "usb1"]%string
  /\ map MicrophoneSelector.label (MicrophoneSelector.microphones st')
     = ["Microphone 01234567"; "USB microphone"]%string.
Proof.
  intros devices st'. unfold st'. split.
  - rewrite (proj1 (listed_microphones_are_the_audio_inputs oneTrackStream devices
                      MicrophoneSelector.initialState [] "")).
    reflexivity.
  - reflexivity.
Defined.
